(** * ImageVisionLLMReader (loader_hub/file/image_blip2/base.py)

    A shallow embedding of the BLIP-2 image-caption reader.  The class is a
    thin adapter: almost every step is a call into a foreign library (torch,
    transformers, PIL, gpt_index, llama_index).  Those calls are kept as
    oracles over an opaque world [W]; what is modelled in full is the local
    logic of the two methods: which calls are made, in which order, with
    which arguments, which attributes of [self] are written and read, and how
    exceptions travel. *)

From stdpp Require Import gmap strings list fin_maps.

Local Open Scope string_scope.

(** ** Python-side data *)

(** [torch.float16] and [torch.float32], the only two dtypes the class names. *)
Inductive dtype := float16 | float32.

Definition Path := string.

Section Reader.

(** [W]: the world outside the interpreter (file system, model hub, device
    memory, the backend's own caches).  [Err]: exceptions raised by foreign
    code.  [Image]: PIL image objects.  [Obj]: every other foreign object
    (processor, model, tensors, token sequences). *)
Context {W Err Image Obj : Type}.

(** Values stored in the [parser_config] dictionary. *)
Inductive pyval :=
| PStr (s : string)
| PDtype (t : dtype)
| PObj (o : Obj).

(** Values an attribute of the reader can hold. *)
Inductive attrval :=
| ANone
| ABool (b : bool)
| AStr (s : string)
| ADict (d : gmap string pyval).

(** Python truthiness, as used by [if self._keep_image:]. *)
Definition truthy (v : attrval) : bool :=
  match v with
  | ANone => false
  | ABool b => b
  | AStr s => negb (String.eqb s "")
  | ADict d => negb (bool_decide (d = ∅))
  end.

Inductive exn :=
| ImportError (msg : string)
| AttributeError (name : string)
| KeyError (key : string)
| TypeError (msg : string)
| Propagated (e : Err).

(** [v[k]] for a string key. *)
Definition getitem (v : attrval) (k : string) : exn + pyval :=
  match v with
  | ADict d =>
      match d !! k with
      | Some x => inr x
      | None => inl (KeyError k)
      end
  | AStr _ => inl (TypeError "string indices must be integers")
  | ABool _ => inl (TypeError "'bool' object is not subscriptable")
  | ANone => inl (TypeError "'NoneType' object is not subscriptable")
  end.

(** llama_index's [ImageDocument]; [ImageDocument(text=.., image=..)] leaves
    every other field, [extra_info] among them, at the schema default
    [None]. *)
Record ImageDocument := {
  text : option string;
  image : option string;
  extra_info : option (gmap string pyval)
}.

(** What a caller of [load_data] can get back: the annotation promises a
    list of documents, Python does not enforce it. *)
Inductive retval :=
| RDoc (d : ImageDocument)
| RList (l : list ImageDocument).

(** ** Foreign calls *)

(** Every call that leaves the class is recorded with its arguments. *)
Inductive event :=
| EvImport (module : string)
| EvCudaIsAvailable
| EvFromPretrained (cls name : string) (torch_dtype : option dtype)
| EvImageOpen (file : Path)
| EvConvert (img : Image) (mode : string)
| EvImg2b64 (img : Image)
| EvModelTo (model device : pyval)
| EvProcessor (processor : pyval) (img : Image) (prompt : attrval)
| EvInputsTo (inputs : Obj) (device dt : pyval)
| EvGenerate (model : pyval) (inputs : Obj)
| EvGetitem0 (out : Obj)
| EvDecode (processor : pyval) (seq : Obj).

Definition is_import (e : event) : bool :=
  match e with EvImport _ => true | _ => false end.

Definition is_hub_download (e : event) : bool :=
  match e with EvFromPretrained _ _ _ => true | _ => false end.

Definition is_image_io (e : event) : bool :=
  match e with
  | EvImageOpen _ | EvConvert _ _ | EvImg2b64 _ => true
  | _ => false
  end.

(** Work done on the captioning backend. *)
Definition is_captioning (e : event) : bool :=
  match e with
  | EvModelTo _ _ | EvProcessor _ _ _ | EvInputsTo _ _ _
  | EvGenerate _ _ | EvGetitem0 _ | EvDecode _ _ => true
  | _ => false
  end.

(** The foreign code itself.  [class_attr] is what attribute lookup finds on
    the type of [self] once the instance dictionary has missed: the class in
    base.py binds only [__init__] and [load_data], so any data attribute
    found there comes from [BaseReader] or from a subclass. *)
Record Externals := {
  importable : string -> bool;
  class_attr : string -> option attrval;
  cuda_is_available : W -> bool;
  Blip2Processor_from_pretrained : string -> W -> (Err + Obj) * W;
  Blip2ForConditionalGeneration_from_pretrained :
    string -> dtype -> W -> (Err + Obj) * W;
  Image_open : Path -> W -> (Err + Image) * W;
  Image_mode : Image -> string;
  Image_convert : Image -> string -> W -> (Err + Image) * W;
  img_2_b64 : Image -> W -> (Err + string) * W;
  model_to : pyval -> pyval -> W -> (Err + unit) * W;
  processor_call : pyval -> Image -> attrval -> W -> (Err + Obj) * W;
  inputs_to : Obj -> pyval -> pyval -> W -> (Err + Obj) * W;
  model_generate : pyval -> Obj -> W -> (Err + Obj) * W;
  getitem0 : Obj -> W -> (Err + Obj) * W;
  processor_decode : pyval -> Obj -> W -> (Err + string) * W
}.

Variable ext : Externals.

(** ** The interpreter state and its monad *)

(** [self] is the instance dictionary of the reader. *)
Record state := {
  self : gmap string attrval;
  world : W;
  log : list event
}.

Definition M (A : Type) : Type := state -> (exn + A) * state.

Definition ret {A} (a : A) : M A := fun s => (inr a, s).

Definition raise {A} (e : exn) : M A := fun s => (inl e, s).

Definition bind {A B} (m : M A) (f : A -> M B) : M B :=
  fun s =>
    match m s with
    | (inr a, s') => f a s'
    | (inl e, s') => (inl e, s')
    end.

Notation "'do' x <- m ;; f" := (bind m (fun x => f))
  (at level 10, x name, m at level 99, f at level 200, only parsing).

Definition lift {A} (r : exn + A) : M A := fun s => (r, s).

Definition record (e : event) (s : state) : state :=
  {| self := self s; world := world s; log := log s ++ [e] |}.

(** A foreign call: logged, run on the world, its exception propagated. *)
Definition call {A} (e : event) (f : W -> (Err + A) * W) : M A :=
  fun s =>
    let '(r, w) := f (world s) in
    let s' := {| self := self s; world := w; log := log s ++ [e] |} in
    match r with
    | inr a => (inr a, s')
    | inl x => (inl (Propagated x), s')
    end.

(** A foreign query that only reads the world. *)
Definition query {A} (e : event) (f : W -> A) : M A :=
  fun s => (inr (f (world s)), record e s).

(** An [import] statement naming [module]; [importable] says whether it
    succeeds as a whole (a [from m import a, b] fails when [m] or one of the
    names is missing). *)
Definition import_ (module : string) : M unit :=
  fun s =>
    (if importable ext module then inr tt
     else inl (ImportError ("No module named '" +:+ module +:+ "'")),
     record (EvImport module) s).

(** [try: body / except ImportError: handler]. *)
Definition except_ImportError {A} (body handler : M A) : M A :=
  fun s =>
    match body s with
    | (inl (ImportError _), s') => handler s'
    | r => r
    end.

(** [self.name]: instance dictionary first, then the class. *)
Definition getattr (name : string) : M attrval :=
  fun s =>
    match self s !! name with
    | Some v => (inr v, s)
    | None =>
        match class_attr ext name with
        | Some v => (inr v, s)
        | None => (inl (AttributeError name), s)
        end
    end.

(** [self.name = v]. *)
Definition setattr (name : string) (v : attrval) : M unit :=
  fun s =>
    (inr tt, {| self := <[name := v]> (self s); world := world s; log := log s |}).

(** ** The class *)

Definition hub_name : string := "Salesforce/blip2-opt-2.7b".

Definition default_prompt : string :=
  "Question: describe what you see in this image. Answer:".

Definition msg_torch : string :=
  "install pytorch to use the model: " +:+ "`pip install torch`".
Definition msg_transformers : string :=
  "transformers is required for using BLIP2 model: "
  +:+ "`pip install transformers`".
Definition msg_sentencepiece : string :=
  "sentencepiece is required for using BLIP2 model: "
  +:+ "`pip install sentencepiece`".
Definition msg_PIL : string :=
  "PIL is required to read image files: " +:+ "`pip install Pillow`".

(** Lines 23-55: the branch taken when [parser_config is None]. *)
Definition default_parser_config : M (gmap string pyval) :=
  do _ <- except_ImportError (import_ "torch") (raise (ImportError msg_torch));;
  do _ <- except_ImportError (import_ "transformers")
    (raise (ImportError msg_transformers));;
  do _ <- except_ImportError (import_ "sentencepiece")
    (raise (ImportError msg_sentencepiece));;
  do _ <- except_ImportError (import_ "PIL") (raise (ImportError msg_PIL));;
  do on_gpu <- query EvCudaIsAvailable (cuda_is_available ext);;
  let device := if on_gpu then "cuda" else "cpu" in
  do on_gpu' <- query EvCudaIsAvailable (cuda_is_available ext);;
  let dt := if on_gpu' then float16 else float32 in
  do processor <- call (EvFromPretrained "Blip2Processor" hub_name None)
                 (Blip2Processor_from_pretrained ext hub_name);;
  do model <- call (EvFromPretrained "Blip2ForConditionalGeneration" hub_name
                   (Some dt))
             (Blip2ForConditionalGeneration_from_pretrained ext hub_name dt);;
  ret (<["processor" := PObj processor]>
       (<["model" := PObj model]>
        (<["device" := PStr device]>
         (<["dtype" := PDtype dt]> ∅)))).

Definition __init__ (parser_config : option (gmap string pyval))
    (keep_image : bool) (prompt : string) : M unit :=
  do parser_config <- match parser_config with
                   | None => default_parser_config
                   | Some c => ret c
                   end;;
  do _ <- setattr "_parser_config" (ADict parser_config);;
  do _ <- setattr "_keep_image" (ABool keep_image);;
  setattr "_prompt" (AStr prompt).

(** [ImageVisionLLMReader(parser_config, keep_image, prompt)]: a fresh
    instance, then [__init__] on it. *)
Definition new (parser_config : option (gmap string pyval))
    (keep_image : bool) (prompt : string) : M unit :=
  fun s =>
    __init__ parser_config keep_image prompt
      {| self := ∅; world := world s; log := log s |}.

(** Lines 68-69. *)
Definition normalize (img : Image) : M Image :=
  if negb (String.eqb (Image_mode ext img) "RGB")
  then call (EvConvert img "RGB") (Image_convert ext img "RGB")
  else ret img.

(** Lines 71-94: everything [load_data] does once the image is in RGB. *)
Definition encode_and_caption (img : Image) : M retval :=
  do keep <- getattr "_keep_image";;
  do image_str <- (if truthy keep
                   then do b <- call (EvImg2b64 img) (img_2_b64 ext img);;
                        ret (Some b)
                   else ret None);;
  do cfg <- getattr "parser_config";;
  do model <- lift (getitem cfg "model");;
  do cfg <- getattr "parser_config";;
  do processor <- lift (getitem cfg "processor");;
  do cfg <- getattr "parser_config";;
  do device <- lift (getitem cfg "device");;
  do cfg <- getattr "parser_config";;
  do dt <- lift (getitem cfg "dtype");;
  do _ <- call (EvModelTo model device) (model_to ext model device);;
  do prompt <- getattr "_prompt";;
  do inputs <- call (EvProcessor processor img prompt)
                 (processor_call ext processor img prompt);;
  do inputs <- call (EvInputsTo inputs device dt)
                 (inputs_to ext inputs device dt);;
  do out <- call (EvGenerate model inputs) (model_generate ext model inputs);;
  do seq <- call (EvGetitem0 out) (getitem0 ext out);;
  do text_str <- call (EvDecode processor seq)
                   (processor_decode ext processor seq);;
  ret (RDoc {| text := Some text_str; image := image_str; extra_info := None |}).

Definition load_data (file : Path)
    (extra_info : option (gmap string pyval)) : M retval :=
  do _ <- import_ "PIL";;
  do _ <- import_ "gpt_index.img_utils";;
  do img <- call (EvImageOpen file) (Image_open ext file);;
  do img <- normalize img;;
  encode_and_caption img.

End Reader.

(** ** Vocabulary of the specification *)

(** The optional libraries construction checks, in the order it checks
    them. *)
Definition required_modules : list string :=
  ["torch"; "transformers"; "sentencepiece"; "PIL"].

(** The first required module that cannot be imported, if any. *)
Definition first_missing {W Err Image Obj : Type}
    (ext : @Externals W Err Image Obj) : option string :=
  List.find (fun m => negb (importable ext m)) required_modules.

(** The message construction raises for a missing module. *)
Definition remedy (m : string) : string :=
  if String.eqb m "torch" then msg_torch
  else if String.eqb m "transformers" then msg_transformers
  else if String.eqb m "sentencepiece" then msg_sentencepiece
  else msg_PIL.

(** The pip package that provides a module. *)
Definition pip_package (m : string) : string :=
  if String.eqb m "PIL" then "Pillow" else m.

(** A computation that leaves the instance dictionary alone and adds to the
    log only events that satisfy [P]. *)
Definition appends {W Err Image Obj A : Type} (P : @event Image Obj -> Prop)
    (m : @M W Err Image Obj A) : Prop :=
  forall s,
    self (snd (m s)) = self s
    /\ exists l, log (snd (m s)) = (log s ++ l)%list /\ Forall P l.



(** Two states that differ at most in the instance attribute [name]. *)
Definition same_but {W Image Obj : Type} (name : string)
    (s t : @state W Image Obj) : Prop :=
  world s = world t
  /\ log s = log t
  /\ forall n, n <> name -> self s !! n = self t !! n.

(** A computation whose outcome and effects do not depend on the instance
    attribute [name]. *)
Definition blind_to {W Err Image Obj A : Type} (name : string)
    (m : @M W Err Image Obj A) : Prop :=
  forall s t,
    same_but name s t ->
    fst (m s) = fst (m t) /\ same_but name (snd (m s)) (snd (m t)).

(** The exceptions [load_data] can end in before it reaches the backend. *)
Definition early_failure {Err : Type} (e : @exn Err) : Prop :=
  match e with
  | ImportError _ | Propagated _ => True
  | AttributeError name => name = "parser_config"
  | _ => False
  end.

(** The image and the world after lines 68-69, when the conversion (if one
    is needed) does not raise. *)
Definition normalized {W Err Image Obj : Type}
    (ext : @Externals W Err Image Obj) (img : Image) (w : W)
    : option (Image * W) :=
  if negb (String.eqb (Image_mode ext img) "RGB")
  then match Image_convert ext img "RGB" w with
       | (inr img', w') => Some (img', w')
       | (inl _, _) => None
       end
  else Some (img, w).

(** What [self.name] evaluates to, if anything. *)
Definition lookup_attr {W Err Image Obj : Type}
    (ext : @Externals W Err Image Obj) (d : gmap string (@attrval Obj))
    (name : string) : option (@attrval Obj) :=
  match d !! name with
  | Some v => Some v
  | None => class_attr ext name
  end.

(** The keys [load_data] reads from the configuration, in the order it
    reads them (lines 77-81). *)
Definition config_keys : list string :=
  ["model"; "processor"; "device"; "dtype"].

(** The first of the four keys that dictionary [c] lacks, if any. *)
Definition missing_key {Obj : Type} (c : gmap string (@pyval Obj))
    : option string :=
  List.find (fun k => match c !! k with None => true | Some _ => false end)
    config_keys.

(** [self.parser_config] is a dictionary with all four keys. *)
Definition config_complete {W Err Image Obj : Type}
    (ext : @Externals W Err Image Obj) (d : gmap string (@attrval Obj))
    : Prop :=
  exists c : gmap string (@pyval Obj),
    lookup_attr ext d "parser_config" = Some (ADict c)
    /\ forall k, k ∈ config_keys -> is_Some (c !! k).

(** A computation run on an instance whose dictionary is [d]: it leaves the
    dictionary alone, adds to the log only events satisfying [P], returns
    only values satisfying [R] and raises only exceptions satisfying [E]. *)
Definition runs {W Err Image Obj A : Type} (d : gmap string (@attrval Obj))
    (m : @M W Err Image Obj A) (R : A -> Prop) (E : @exn Err -> Prop)
    (P : @event Image Obj -> Prop) : Prop :=
  forall s,
    self s = d ->
    self (snd (m s)) = d
    /\ (exists l, log (snd (m s)) = (log s ++ l)%list /\ Forall P l)
    /\ match fst (m s) with
       | inr a => R a
       | inl e => E e
       end.

(** What an exception of [load_data] says about its cause, for an instance
    whose dictionary is [d]. *)
Definition load_data_cause {W Err Image Obj : Type}
    (ext : @Externals W Err Image Obj) (d : gmap string (@attrval Obj))
    (e : @exn Err) : Prop :=
  match e with
  | ImportError _ =>
      importable ext "PIL" = false
      \/ importable ext "gpt_index.img_utils" = false
  | AttributeError name =>
      name ∈ ["_keep_image"; "parser_config"; "_prompt"]
      /\ lookup_attr ext d name = None
  | KeyError k =>
      exists c, lookup_attr ext d "parser_config" = Some (ADict c)
                /\ missing_key c = Some k
  | TypeError _ =>
      exists v, lookup_attr ext d "parser_config" = Some v
                /\ forall c, v <> ADict c
  | Propagated _ => True
  end.

(** What a foreign call made by [load_data file] says about its arguments,
    for an instance whose dictionary is [d]. *)
Definition load_data_event {W Err Image Obj : Type}
    (ext : @Externals W Err Image Obj) (d : gmap string (@attrval Obj))
    (file : Path) (e : @event Image Obj) : Prop :=
  match e with
  | EvImport m => m = "PIL" \/ m = "gpt_index.img_utils"
  | EvCudaIsAvailable => False
  | EvFromPretrained _ _ _ => False
  | EvImageOpen f => f = file
  | EvConvert _ mode => mode = "RGB"
  | EvImg2b64 _ =>
      exists k, lookup_attr ext d "_keep_image" = Some k /\ truthy k = true
  | EvModelTo m dev =>
      exists c, lookup_attr ext d "parser_config" = Some (ADict c)
                /\ c !! "model" = Some m /\ c !! "device" = Some dev
  | EvProcessor p _ q =>
      (exists c, lookup_attr ext d "parser_config" = Some (ADict c)
                 /\ c !! "processor" = Some p)
      /\ lookup_attr ext d "_prompt" = Some q
  | EvInputsTo _ dev dt =>
      exists c, lookup_attr ext d "parser_config" = Some (ADict c)
                /\ c !! "device" = Some dev /\ c !! "dtype" = Some dt
  | EvGenerate m _ =>
      exists c, lookup_attr ext d "parser_config" = Some (ADict c)
                /\ c !! "model" = Some m
  | EvGetitem0 _ => True
  | EvDecode p _ =>
      exists c, lookup_attr ext d "parser_config" = Some (ADict c)
                /\ c !! "processor" = Some p
  end.

(** The part of [load_data_event] that does not depend on the instance:
    which libraries, files and colour modes a call may touch. *)
Definition load_data_touches {Image Obj : Type} (file : Path)
    (e : @event Image Obj) : Prop :=
  match e with
  | EvImport m => m = "PIL" \/ m = "gpt_index.img_utils"
  | EvCudaIsAvailable => False
  | EvFromPretrained _ _ _ => False
  | EvImageOpen f => f = file
  | EvConvert _ mode => mode = "RGB"
  | _ => True
  end.

(** The part of [load_data_event] about the backend: the model, processor,
    device and dtype of a call are the entries of the dictionary [c], the
    prompt is [q]. *)
Definition backend_call_from {Image Obj : Type}
    (c : gmap string (@pyval Obj)) (q : @attrval Obj)
    (e : @event Image Obj) : Prop :=
  match e with
  | EvModelTo m dev => c !! "model" = Some m /\ c !! "device" = Some dev
  | EvProcessor p _ q' => c !! "processor" = Some p /\ q' = q
  | EvInputsTo _ dev dt => c !! "device" = Some dev /\ c !! "dtype" = Some dt
  | EvGenerate m _ => c !! "model" = Some m
  | EvDecode p _ => c !! "processor" = Some p
  | _ => True
  end.

Definition is_serialization {Image Obj : Type} (e : @event Image Obj)
    : bool :=
  match e with EvImg2b64 _ => true | _ => false end.

(** The image string and the world after lines 72-74 for a [_keep_image]
    value [k], when the serializer (if it is called) does not raise. *)
Definition serialized {W Err Image Obj : Type}
    (ext : @Externals W Err Image Obj) (k : @attrval Obj) (img : Image)
    (w : W) : option (option string * W) :=
  if truthy k
  then match img_2_b64 ext img w with
       | (inr b, w') => Some (Some b, w')
       | (inl _, _) => None
       end
  else Some (None, w).

(** The calls construction may make. *)
Definition construction_event {Image Obj : Type} (e : @event Image Obj)
    : Prop :=
  match e with
  | EvImport m => m ∈ required_modules
  | EvCudaIsAvailable => True
  | EvFromPretrained cls name _ =>
      (cls = "Blip2Processor" \/ cls = "Blip2ForConditionalGeneration")
      /\ name = hub_name
  | _ => False
  end.

(** ** A small concrete world

    Used to run the two methods on explicit inputs.  The world is the number
    of hub downloads made so far; images are a colour mode and pixel data. *)
Module Demo.

Definition World := nat.
Definition Exc := string.
Definition Img := (string * string)%type.
Definition Handle := string.

Definition all_modules : list string :=
  ["torch"; "transformers"; "sentencepiece"; "PIL"; "gpt_index.img_utils"].

(** [BaseReader] as it stands: no data attribute on the class. *)
Definition plain_class : string -> option (@attrval Handle) := fun _ => None.

Definition good_config : gmap string (@pyval Handle) :=
  <["processor" := PObj "proc"]>
  (<["model" := PObj "blip2"]>
   (<["device" := PStr "cpu"]>
    (<["dtype" := PDtype float32]> ∅))).

(** A subclass that binds [parser_config] as a class attribute. *)
Definition patched_class : string -> option (@attrval Handle) :=
  fun name =>
    if String.eqb name "parser_config" then Some (ADict good_config) else None.

Definition open_file (file : Path) (w : World) : (Exc + Img) * World :=
  if String.eqb file "photo.png" then (inr ("RGB", "rrrr"), w)
  else if String.eqb file "scan.png" then (inr ("L", "gggg"), w)
  else (inl "UnidentifiedImageError", w).

Definition env (mods : list string)
    (cls : string -> option (@attrval Handle)) (gpu : bool)
    : @Externals World Exc Img Handle := {|
  importable := fun m => bool_decide (m ∈ mods);
  class_attr := cls;
  cuda_is_available := fun _ => gpu;
  Blip2Processor_from_pretrained := fun name w => (inr "proc", S w);
  Blip2ForConditionalGeneration_from_pretrained :=
    fun name dt w => (inr "blip2", S w);
  Image_open := open_file;
  Image_mode := fst;
  Image_convert := fun img mode w => (inr (mode, snd img), w);
  img_2_b64 := fun img w => (inr ("b64:" +:+ fst img +:+ ":" +:+ snd img), w);
  model_to := fun _ _ w => (inr tt, w);
  processor_call := fun _ _ _ w => (inr "inputs", w);
  inputs_to := fun x _ _ w => (inr x, w);
  model_generate := fun _ _ w => (inr "tokens", w);
  getitem0 := fun _ w => (inr "tokens[0]", w);
  processor_decode := fun _ _ w => (inr "a red square", w)
|}.

Definition start : @state World Img Handle :=
  {| self := ∅; world := 0; log := [] |}.

(** The state a caller holds once a computation has run. *)
Definition after {A} (r : (@exn Exc + A) * @state World Img Handle)
    : @state World Img Handle := snd r.

(** Everything installed, [BaseReader] as it stands, no accelerator. *)
Definition plain : @Externals World Exc Img Handle :=
  env all_modules plain_class false.

(** The same with [parser_config] bound by the class. *)
Definition patched : @Externals World Exc Img Handle :=
  env all_modules patched_class false.

(** Everything installed and an accelerator present. *)
Definition with_gpu : @Externals World Exc Img Handle :=
  env all_modules plain_class true.

(** No sentencepiece. *)
Definition no_sentencepiece : @Externals World Exc Img Handle :=
  env ["torch"; "transformers"; "PIL"] plain_class false.

(** A reader built with an explicit configuration. *)
Definition reader (E : @Externals World Exc Img Handle) (keep : bool)
    : @state World Img Handle :=
  after (new E (Some good_config) keep default_prompt start).

(** The document [ImageDocument(text=t, image=i)]. *)
Definition doc (t : string) (i : option string) : @ImageDocument Handle :=
  {| text := Some t; image := i; extra_info := None |}.

(** A class whose [parser_config] lacks the dtype. *)
Definition half_config : gmap string (@pyval Handle) :=
  <["processor" := PObj "proc"]>
  (<["model" := PObj "blip2"]>
   (<["device" := PStr "cpu"]> ∅)).

Definition half_class : string -> option (@attrval Handle) :=
  fun name =>
    if String.eqb name "parser_config" then Some (ADict half_config) else None.

Definition half : @Externals World Exc Img Handle :=
  env all_modules half_class false.

(** The four libraries of construction, but no gpt_index. *)
Definition no_gpt_index : @Externals World Exc Img Handle :=
  env ["torch"; "transformers"; "sentencepiece"; "PIL"] plain_class false.

(** Everything installed, the hub unreachable for the model weights. *)
Definition offline : @Externals World Exc Img Handle := {|
  importable := importable plain;
  class_attr := class_attr plain;
  cuda_is_available := cuda_is_available plain;
  Blip2Processor_from_pretrained := Blip2Processor_from_pretrained plain;
  Blip2ForConditionalGeneration_from_pretrained :=
    fun name dt w => (inl "ConnectionError", w);
  Image_open := Image_open plain;
  Image_mode := Image_mode plain;
  Image_convert := Image_convert plain;
  img_2_b64 := img_2_b64 plain;
  model_to := model_to plain;
  processor_call := processor_call plain;
  inputs_to := inputs_to plain;
  model_generate := model_generate plain;
  getitem0 := getitem0 plain;
  processor_decode := processor_decode plain
|}.

Definition metadata : gmap string (@pyval Handle) :=
  <["source" := PStr "camera"]> ∅.

End Demo.

(** ** Properties *)

Section Properties.

Context {W Err Image Obj : Type} (ext : @Externals W Err Image Obj).

Local Abbreviation St := (@state W Image Obj).
Local Abbreviation Mon := (@M W Err Image Obj).
Local Abbreviation Ev := (@event Image Obj).
Local Abbreviation Dict := (gmap string (@pyval Obj)).

(** *** Running the monad one statement at a time *)

Lemma bind_inr {A B} (m : Mon A) (f : A -> Mon B) (s s' : St) (b : B) :
  bind m f s = (inr b, s') ->
  exists a s1, m s = (inr a, s1) /\ f a s1 = (inr b, s').
Proof.
  unfold bind. destruct (m s) as [[e|a] s1]; intros H.
  - discriminate.
  - eauto.
Qed.

Lemma bind_step {A B} (m : Mon A) (f : A -> Mon B) (s s1 : St) (a : A) :
  m s = (inr a, s1) -> bind m f s = f a s1.
Proof. intros H. unfold bind. now rewrite H. Qed.

Lemma bind_fail {A B} (m : Mon A) (f : A -> Mon B) (s s1 : St) (e : exn) :
  m s = (inl e, s1) -> bind m f s = (inl e, s1).
Proof. intros H. unfold bind. now rewrite H. Qed.

Lemma ret_inr {A} (a b : A) (s s' : St) :
  @ret W Err Image Obj A a s = (inr b, s') -> b = a /\ s' = s.
Proof. unfold ret. intros H. now inversion H. Qed.

Lemma lift_inr {A} (r : exn + A) (a : A) (s s' : St) :
  @lift W Err Image Obj A r s = (inr a, s') -> r = inr a /\ s' = s.
Proof. unfold lift. intros H. now inversion H. Qed.

Lemma import_inr (m : string) (s s' : St) (u : unit) :
  import_ ext m s = (inr u, s') ->
  importable ext m = true /\ s' = record (EvImport m) s.
Proof.
  unfold import_. destruct (importable ext m); intros H; now inversion H.
Qed.

Lemma call_inr {A} (e : Ev) (f : W -> (Err + A) * W) (s s' : St) (a : A) :
  call e f s = (inr a, s') ->
  exists w, f (world s) = (inr a, w)
            /\ s' = {| self := self s; world := w; log := log s ++ [e] |}.
Proof.
  unfold call. destruct (f (world s)) as [[x|a'] w]; intros H.
  - discriminate.
  - inversion H; subst. eauto.
Qed.

Lemma call_ok {A} (e : Ev) (f : W -> (Err + A) * W) (s : St) (a : A) (w : W) :
  f (world s) = (inr a, w) ->
  call e f s = (inr a, {| self := self s; world := w; log := log s ++ [e] |}).
Proof. intros H. unfold call. now rewrite H. Qed.

Lemma call_err {A} (e : Ev) (f : W -> (Err + A) * W) (s : St) (x : Err) (w : W) :
  f (world s) = (inl x, w) ->
  call e f s
  = (inl (Propagated x), {| self := self s; world := w; log := log s ++ [e] |}).
Proof. intros H. unfold call. now rewrite H. Qed.

Lemma getattr_inr (name : string) (s s' : St) (v : attrval) :
  getattr ext name s = (inr v, s') ->
  s' = s
  /\ (self s !! name = Some v
      \/ (self s !! name = None /\ class_attr ext name = Some v)).
Proof.
  unfold getattr. destruct (self s !! name) as [v'|] eqn:E.
  - intros H; inversion H; subst; auto.
  - destruct (class_attr ext name) as [v'|] eqn:C; intros H; inversion H; subst.
    auto.
Qed.

Lemma getattr_own (name : string) (s : St) (v : attrval) :
  self s !! name = Some v -> getattr ext name s = (inr v, s).
Proof. intros H. unfold getattr. now rewrite H. Qed.

Lemma getattr_missing (name : string) (s : St) :
  self s !! name = None -> class_attr ext name = None ->
  getattr ext name s = (inl (AttributeError name), s).
Proof. intros H C. unfold getattr. now rewrite H, C. Qed.

(** *** Computations that only add to the log *)

Lemma appends_ret {A} (P : Ev -> Prop) (a : A) :
  appends P (@ret W Err Image Obj A a).
Proof. intros s. simpl. split; [easy|]. exists []. now rewrite app_nil_r. Qed.

Lemma appends_raise {A} (P : Ev -> Prop) (e : exn) :
  appends P (@raise W Err Image Obj A e).
Proof. intros s. simpl. split; [easy|]. exists []. now rewrite app_nil_r. Qed.

Lemma appends_lift {A} (P : Ev -> Prop) (r : exn + A) :
  appends P (@lift W Err Image Obj A r).
Proof. intros s. simpl. split; [easy|]. exists []. now rewrite app_nil_r. Qed.

Lemma appends_getattr (P : Ev -> Prop) (name : string) :
  appends P (getattr ext name).
Proof.
  intros s. unfold getattr.
  destruct (self s !! name); [|destruct (class_attr ext name)]; simpl;
    (split; [easy|]; exists []; now rewrite app_nil_r).
Qed.

Lemma appends_import (P : Ev -> Prop) (m : string) :
  P (EvImport m) -> appends P (import_ ext m).
Proof.
  intros HP s. unfold import_. simpl. split; [easy|].
  exists [EvImport m]. split; [easy|]. now constructor.
Qed.

Lemma appends_call {A} (P : Ev -> Prop) (e : Ev) (f : W -> (Err + A) * W) :
  P e -> appends P (call e f).
Proof.
  intros HP s. unfold call. destruct (f (world s)) as [[x|a] w]; simpl;
    (split; [easy|]; exists [e]; split; [easy|]; now constructor).
Qed.

Lemma appends_query {A} (P : Ev -> Prop) (e : Ev) (f : W -> A) :
  P e -> appends P (@query W Err Image Obj A e f).
Proof.
  intros HP s. unfold query. simpl. split; [easy|].
  exists [e]. split; [easy|]. now constructor.
Qed.

Lemma appends_bind {A B} (P : Ev -> Prop) (m : Mon A) (f : A -> Mon B) :
  appends P m -> (forall a, appends P (f a)) -> appends P (bind m f).
Proof.
  intros Hm Hf s. unfold bind.
  destruct (Hm s) as [Hs (l & Hl & HP)].
  destruct (m s) as [[e|a] s1]; simpl in *.
  - split; [easy|]. now exists l.
  - destruct (Hf a s1) as [Hs' (l' & Hl' & HP')].
    split; [congruence|].
    exists (l ++ l')%list. split.
    + now rewrite Hl', Hl, app_assoc.
    + now apply Forall_app.
Qed.

Lemma appends_except {A} (P : Ev -> Prop) (body handler : Mon A) :
  appends P body -> appends P handler ->
  appends P (except_ImportError body handler).
Proof.
  intros Hb Hh s. unfold except_ImportError.
  destruct (Hb s) as [Hs (l & Hl & HP)].
  destruct (body s) as [[e|a] s1]; simpl in *; [destruct e|]; simpl;
    try (split; [easy|]; now exists l).
  destruct (Hh s1) as [Hs' (l' & Hl' & HP')].
  split; [congruence|].
  exists (l ++ l')%list. split.
  - now rewrite Hl', Hl, app_assoc.
  - now apply Forall_app.
Qed.

Lemma appends_weaken {A} (P Q : Ev -> Prop) (m : Mon A) :
  (forall e, P e -> Q e) -> appends P m -> appends Q m.
Proof.
  intros HPQ Hm s. destruct (Hm s) as [Hs (l & Hl & HP)].
  split; [easy|]. exists l. split; [easy|].
  eapply Forall_impl; eauto.
Qed.

Ltac solve_appends :=
  repeat first
    [ apply appends_ret
    | apply appends_raise
    | apply appends_lift
    | apply appends_getattr
    | apply appends_import; simpl; now auto
    | apply appends_call; simpl; now auto
    | apply appends_query; simpl; now auto
    | apply appends_except
    | apply appends_bind; [|intros ?]
    | match goal with
      | |- appends _ (if ?b then _ else _) => destruct b
      | |- appends _ (match ?o with Some _ => _ | None => _ end) => destruct o
      end ].

Lemma default_parser_config_appends :
  appends (fun e => is_image_io e = false /\ is_captioning e = false)
    (default_parser_config ext).
Proof. unfold default_parser_config. solve_appends. Qed.

Lemma normalize_appends (P : Ev -> Prop) (img : Image) :
  P (EvConvert img "RGB") -> appends P (normalize ext img).
Proof. intros HP. unfold normalize. solve_appends. Qed.

Lemma load_data_appends (file : Path) (extra : option Dict) :
  appends (fun e => is_hub_download e = false) (load_data ext file extra).
Proof. unfold load_data, normalize. solve_appends. Qed.

(** *** Construction *)

(** C3. With an explicit (non-[None]) [parser_config], construction imports
    nothing, downloads nothing and leaves the world alone: the log and the
    world are as before, and the instance holds exactly the supplied
    configuration, the [keep_image] flag and the prompt. *)
Theorem new_explicit_config_only_stores
    (cfg : Dict) (keep : bool) (prompt : string) (s : St) :
  new ext (Some cfg) keep prompt s
  = (inr tt,
     {| self := <["_prompt" := AStr prompt]>
                (<["_keep_image" := ABool keep]>
                 (<["_parser_config" := ADict cfg]> ∅));
        world := world s;
        log := log s |}).
Proof. reflexivity. Qed.

Lemma required_modules_cases (m : string) :
  first_missing ext = Some m ->
  (m = "torch" /\ importable ext "torch" = false)
  \/ (m = "transformers" /\ importable ext "torch" = true
      /\ importable ext "transformers" = false)
  \/ (m = "sentencepiece" /\ importable ext "torch" = true
      /\ importable ext "transformers" = true
      /\ importable ext "sentencepiece" = false)
  \/ (m = "PIL" /\ importable ext "torch" = true
      /\ importable ext "transformers" = true
      /\ importable ext "sentencepiece" = true
      /\ importable ext "PIL" = false).
Proof.
  unfold first_missing, required_modules. simpl.
  destruct (importable ext "torch") eqn:H1; simpl;
    [|intros [= <-]; naive_solver].
  destruct (importable ext "transformers") eqn:H2; simpl;
    [|intros [= <-]; naive_solver].
  destruct (importable ext "sentencepiece") eqn:H3; simpl;
    [|intros [= <-]; naive_solver].
  destruct (importable ext "PIL") eqn:H4; simpl;
    [discriminate|intros [= <-]; naive_solver].
Qed.

Lemma remedy_names_package (m : string) :
  m ∈ required_modules ->
  exists reason,
    remedy m = reason +:+ "`pip install " +:+ pip_package m +:+ "`".
Proof.
  unfold required_modules. rewrite !elem_of_cons, elem_of_nil.
  intros [->|[->|[->|[->|[]]]]].
  - now exists "install pytorch to use the model: ".
  - now exists "transformers is required for using BLIP2 model: ".
  - now exists "sentencepiece is required for using BLIP2 model: ".
  - now exists "PIL is required to read image files: ".
Qed.

Lemma remedy_distinct (m m' : string) :
  m ∈ required_modules -> m' ∈ required_modules ->
  remedy m = remedy m' -> m = m'.
Proof.
  unfold required_modules. rewrite !elem_of_cons, !elem_of_nil.
  intros [->|[->|[->|[->|[]]]]] [->|[->|[->|[->|[]]]]];
    first [reflexivity | intros H; vm_compute in H; discriminate H].
Qed.

(** C4. With [parser_config] omitted, let [m] be the first of torch,
    transformers, sentencepiece, PIL (in that order) that cannot be imported.
    Then construction raises [ImportError] with the message of [m], which
    ends in the pip command for [m]'s package and differs from the message of
    every other required module; nothing but imports has been attempted, the
    world is untouched, and the instance has no attribute set. *)
Theorem new_missing_dependency
    (m : string) (keep : bool) (prompt : string) (s : St) :
  first_missing ext = Some m ->
  exists s',
    new ext None keep prompt s = (inl (ImportError (remedy m)), s')
    /\ self s' = ∅
    /\ world s' = world s
    /\ (exists l, log s' = (log s ++ l)%list /\ forallb is_import l = true)
    /\ (exists reason,
          remedy m = reason +:+ "`pip install " +:+ pip_package m +:+ "`")
    /\ (forall m', m' ∈ required_modules -> m' <> m -> remedy m' <> remedy m).
Proof.
  intros Hm.
  assert (Hin : m ∈ required_modules).
  { unfold first_missing in Hm. apply find_some in Hm as [Hin _].
    now apply list_elem_of_In. }
  pose proof (remedy_names_package m Hin) as Hmsg.
  assert (Hd : forall m', m' ∈ required_modules -> m' <> m ->
                          remedy m' <> remedy m).
  { intros m' Hin' Hne Heq. apply Hne. now apply remedy_distinct. }
  apply required_modules_cases in Hm.
  unfold new, __init__, default_parser_config, bind, except_ImportError,
    import_, raise. simpl.
  destruct Hm as [[-> H1]|[[-> [H1 H2]]|[[-> [H1 [H2 H3]]]|[-> [H1 [H2 [H3 H4]]]]]]];
    rewrite ?H1, ?H2, ?H3, ?H4; simpl;
    (eexists; split; [reflexivity|]; simpl;
     repeat split; auto;
     eexists; split; [rewrite <- ?app_assoc; reflexivity | reflexivity]).
Qed.

(** C5. When the default configuration is built, [device] is ["cuda"]
    exactly when [torch.cuda.is_available()] holds and ["cpu"] otherwise,
    [dtype] is [float16] exactly when it holds and [float32] otherwise, so
    half precision is stored if and only if the accelerator is; the model is
    requested from the hub with that same dtype. *)
Theorem new_default_device_dtype
    (keep : bool) (prompt : string) (s s' : St) :
  new ext None keep prompt s = (inr tt, s') ->
  let gpu := cuda_is_available ext (world s) in
  exists cfg : Dict,
    self s' !! "_parser_config" = Some (ADict cfg)
    /\ cfg !! "device" = Some (PStr (if gpu then "cuda" else "cpu"))
    /\ cfg !! "dtype" = Some (PDtype (if gpu then float16 else float32))
    /\ (cfg !! "dtype" = Some (PDtype float16)
        <-> cfg !! "device" = Some (PStr "cuda"))
    /\ EvFromPretrained "Blip2ForConditionalGeneration" hub_name
         (Some (if gpu then float16 else float32)) ∈ log s'.
Proof.
  intros H gpu.
  unfold new, __init__, default_parser_config, bind, except_ImportError,
    import_, raise, query, call, setattr, ret in H.
  simpl in H.
  repeat match type of H with
         | context [importable ext ?m] => destruct (importable ext m)
         end; simpl in H; try discriminate H.
  fold gpu in H.
  destruct (Blip2Processor_from_pretrained ext hub_name (world s))
    as [[x|processor] w1]; simpl in H; try discriminate H.
  destruct (Blip2ForConditionalGeneration_from_pretrained ext hub_name
              (if gpu then float16 else float32) w1)
    as [[x|model] w2]; simpl in H; try discriminate H.
  injection H as <-. simpl.
  match goal with
  | |- context [ADict ?c] => set (cfg := c)
  end.
  assert (Hdev : cfg !! "device" = Some (PStr (if gpu then "cuda" else "cpu")))
    by reflexivity.
  assert (Hdt : cfg !! "dtype"
                = Some (PDtype (if gpu then float16 else float32)))
    by reflexivity.
  exists cfg. split; [reflexivity|].
  split; [exact Hdev|]. split; [exact Hdt|].
  split.
  - rewrite Hdev, Hdt. destruct gpu; split; intros E; congruence.
  - rewrite !elem_of_app. right. apply list_elem_of_here.
Qed.

(** *** What construction leaves in the instance *)

Lemma new_self (cfg : option Dict) (keep : bool) (prompt : string) (s0 s1 : St) :
  new ext cfg keep prompt s0 = (inr tt, s1) ->
  exists c : Dict,
    self s1 = <["_prompt" := AStr prompt]>
              (<["_keep_image" := ABool keep]>
               (<["_parser_config" := ADict c]> ∅))
    /\ (forall c0, cfg = Some c0 -> c = c0).
Proof.
  unfold new, __init__. intros H.
  apply bind_inr in H as (c & sa & E & H).
  assert (Hsa : self sa = ∅).
  { destruct cfg as [c0|].
    - apply ret_inr in E as [_ ->]. reflexivity.
    - destruct (default_parser_config_appends
                  {| self := ∅; world := world s0; log := log s0 |}) as [Hs _].
      rewrite E in Hs. exact Hs. }
  unfold bind, setattr in H. simpl in H. injection H as <-. simpl.
  exists c. rewrite Hsa. split; [reflexivity|].
  intros c0 ->. apply ret_inr in E as [<- _]. reflexivity.
Qed.

Lemma new_attributes (cfg : option Dict) (keep : bool) (prompt : string)
    (s0 s1 : St) :
  new ext cfg keep prompt s0 = (inr tt, s1) ->
  self s1 !! "_keep_image" = Some (ABool keep)
  /\ self s1 !! "_prompt" = Some (AStr prompt)
  /\ is_Some (self s1 !! "_parser_config")
  /\ self s1 !! "parser_config" = None.
Proof.
  intros H. apply new_self in H as (c & -> & _).
  repeat split; try reflexivity. now exists (ADict c).
Qed.

(** *** Successful calls of [load_data] *)

(** Peel one statement off a computation known to return. *)
Ltac peel H a s E :=
  apply bind_inr in H as (a & s & E & H).

Ltac invert_step E :=
  lazymatch type of E with
  | import_ _ _ _ = (inr _, _) => apply import_inr in E as [E ->]
  | call _ _ _ = (inr _, _) => apply call_inr in E as (? & E & ->)
  | getattr _ _ _ = (inr _, _) => apply getattr_inr in E as [-> E]
  | lift _ _ = (inr _, _) => apply lift_inr in E as [E ->]
  | ret _ _ = (inr _, _) => apply ret_inr in E as [-> ->]
  end.

(** What the second half of [load_data] returns, when it returns: a bare
    [ImageDocument] with a caption, whose image is the serialization of the
    image it was handed when [_keep_image] is truthy and is absent
    otherwise. *)
Lemma encode_and_caption_returns (img : Image) (s s' : St) (r : retval) :
  encode_and_caption ext img s = (inr r, s') ->
  exists (keep : attrval) (t : string) (i : option string),
    r = RDoc {| text := Some t; image := i; extra_info := None |}
    /\ (self s !! "_keep_image" = Some keep
        \/ (self s !! "_keep_image" = None
            /\ class_attr ext "_keep_image" = Some keep))
    /\ match i with
       | Some b => truthy keep = true
                   /\ exists w, img_2_b64 ext img (world s) = (inr b, w)
       | None => truthy keep = false
       end.
Proof.
  unfold encode_and_caption. intros H.
  peel H keep s5 E5. invert_step E5.
  peel H i s6 E6.
  assert (Hi : match i with
               | Some b => truthy keep = true
                           /\ exists w, img_2_b64 ext img (world s) = (inr b, w)
               | None => truthy keep = false
               end).
  { destruct (truthy keep).
    - peel E6 b s7 E7. invert_step E6. invert_step E7. eauto.
    - invert_step E6. reflexivity. }
  clear E6.
  do 8 (let a := fresh "a" in let s := fresh "s" in let E := fresh "E" in
        peel H a s E; clear E).
  do 7 (let a := fresh "a" in let s := fresh "s" in let E := fresh "E" in
        peel H a s E; clear E).
  apply ret_inr in H as [-> _].
  do 3 eexists. split; [reflexivity|]. split; [exact E5|exact Hi].
Qed.

Lemma load_data_returns (file : Path) (extra : option Dict) (s s' : St)
    (r : retval) :
  load_data ext file extra s = (inr r, s') ->
  exists (keep : attrval) (t : string) (i : option string),
    r = RDoc {| text := Some t; image := i; extra_info := None |}
    /\ (self s !! "_keep_image" = Some keep
        \/ (self s !! "_keep_image" = None
            /\ class_attr ext "_keep_image" = Some keep))
    /\ (is_Some i <-> truthy keep = true).
Proof.
  unfold load_data. intros H.
  peel H u1 s1 E1. invert_step E1.
  peel H u2 s2 E2. invert_step E2.
  peel H img0 s3 E3. invert_step E3.
  peel H img s4 E4.
  assert (Hs4 : self s4 = self s).
  { match type of E4 with
    | normalize _ _ ?s3 = _ =>
        destruct (normalize_appends (fun _ => True) img0 I s3) as [Hs _]
    end.
    rewrite E4 in Hs. exact Hs. }
  apply encode_and_caption_returns in H as (keep & t & i & -> & Hk & Hi).
  rewrite Hs4 in Hk.
  exists keep, t, i. split; [reflexivity|]. split; [exact Hk|].
  destruct i as [b|].
  - destruct Hi as [-> _]. split; [easy|]. now exists b.
  - rewrite Hi. split; [intros [? [=]]|discriminate].
Qed.


(** C9. Whatever the annotation [List[Document]] says, a successful call
    hands back one [ImageDocument], never a list. *)
Theorem load_data_returns_bare_document
    (file : Path) (extra : option Dict) (s s' : St) (r : retval) :
  load_data ext file extra s = (inr r, s') ->
  (exists d, r = RDoc d) /\ (forall l, r <> RList l).
Proof.
  intros H. apply load_data_returns in H as (k & t & i & -> & _).
  split; [now eexists|discriminate].
Qed.

(** *** Colour-mode normalization *)

Lemma import_ok (m : string) (s : St) :
  importable ext m = true ->
  import_ ext m s = (inr tt, record (EvImport m) s).
Proof. intros H. unfold import_. now rewrite H. Qed.

Lemma import_err (m : string) (s : St) :
  importable ext m = false ->
  import_ ext m s
  = (inl (ImportError ("No module named '" +:+ m +:+ "'")),
     record (EvImport m) s).
Proof. intros H. unfold import_. now rewrite H. Qed.

(** Close a goal about a call that has just stopped before the backend. *)
Ltac stop_early :=
  do 2 eexists; split; [reflexivity|]; split; [exact I|];
  eexists; split;
  [unfold record; simpl; rewrite <- ?app_assoc; reflexivity|reflexivity].




(** *** The [extra_info] argument *)

(** C7 (as the code has it). [extra_info] is accepted and never used: the
    outcome and every effect of [load_data] are the same whatever is passed,
    and a returned document carries no metadata. *)
Theorem load_data_ignores_extra_info
    (file : Path) (extra extra' : option Dict) (s : St) :
  load_data ext file extra s = load_data ext file extra' s
  /\ match fst (load_data ext file extra s) with
     | inr (RDoc d) => extra_info d = None
     | inr (RList _) => False
     | inl _ => True
     end.
Proof.
  split; [reflexivity|].
  destruct (load_data ext file extra s) as [[e|r] s'] eqn:H; [exact I|].
  apply load_data_returns in H as (k & t & i & -> & _). reflexivity.
Qed.

(** *** Failing calls *)

Lemma load_data_frame (file : Path) (extra : option Dict) (s : St) :
  self (snd (load_data ext file extra s)) = self s.
Proof. now destruct (load_data_appends file extra s). Qed.

(** C8. If [Image.open(file)] raises, [load_data] raises too and returns no
    document; nothing has been asked of the captioning backend; the
    reader's attributes are as before; and, the two function-local imports
    having succeeded, the exception is the one [Image.open] raised, right
    after the open.  More generally every call leaves the reader's
    attributes alone and either raises or returns a document with its text
    set. *)
Theorem load_data_undecodable_path
    (file : Path) (extra : option Dict) (s : St) (x : Err) (w1 : W) :
  Image_open ext file (world s) = (inl x, w1) ->
  (exists e s',
      load_data ext file extra s = (inl e, s')
      /\ self s' = self s
      /\ (exists l, log s' = (log s ++ l)%list
                    /\ forallb (fun ev => negb (is_captioning ev)) l = true)
      /\ (importable ext "PIL" = true ->
          importable ext "gpt_index.img_utils" = true ->
          e = Propagated x
          /\ world s' = w1
          /\ log s' = (log s ++ [EvImport "PIL";
                                 EvImport "gpt_index.img_utils";
                                 EvImageOpen file])%list))
  /\ (forall file' extra' t,
        self (snd (load_data ext file' extra' t)) = self t
        /\ match fst (load_data ext file' extra' t) with
           | inr r => exists d, r = RDoc d /\ is_Some (text d)
           | inl _ => True
           end).
Proof.
  intros Hopen. split.
  - unfold load_data, bind, import_, call. simpl. rewrite Hopen.
    destruct (importable ext "PIL"); simpl;
      [destruct (importable ext "gpt_index.img_utils"); simpl|];
      (do 2 eexists; split; [reflexivity|]; simpl;
       split; [reflexivity|]; split;
       [eexists; split; [rewrite <- ?app_assoc; reflexivity|reflexivity]|]);
      try (intros; discriminate).
    intros _ _. rewrite <- ?app_assoc. auto.
  - intros file' extra' t. split; [apply load_data_frame|].
    destruct (load_data ext file' extra' t) as [[e|r] t'] eqn:H; [exact I|].
    apply load_data_returns in H as (k & c & i & -> & _).
    eexists. split; [reflexivity|]. now exists c.
Qed.

(** *** The configuration attribute *)

Lemma same_but_refl (name : string) (s : St) : same_but name s s.
Proof. now repeat split. Qed.

Lemma blind_ret {A} (name : string) (a : A) :
  blind_to name (@ret W Err Image Obj A a).
Proof. intros s t H. now split. Qed.

Lemma blind_lift {A} (name : string) (r : exn + A) :
  blind_to name (@lift W Err Image Obj A r).
Proof. intros s t H. now split. Qed.

Lemma blind_import (name m : string) : blind_to name (import_ ext m).
Proof.
  intros s t (Hw & Hl & Hs). unfold import_, record. simpl.
  split; [reflexivity|]. repeat split; simpl; auto. now rewrite Hl.
Qed.

Lemma blind_call {A} (name : string) (e : Ev) (f : W -> (Err + A) * W) :
  blind_to name (call e f).
Proof.
  intros s t (Hw & Hl & Hs). unfold call. rewrite Hw, Hl.
  destruct (f (world t)) as [[x|a] w]; simpl; now repeat split.
Qed.

Lemma blind_getattr (name n : string) :
  n <> name -> blind_to name (getattr ext n).
Proof.
  intros Hn s t H. pose proof H as (Hw & Hl & Hs).
  unfold getattr. rewrite (Hs n Hn).
  destruct (self t !! n); [|destruct (class_attr ext n)]; now split.
Qed.

Lemma blind_bind {A B} (name : string) (m : Mon A) (f : A -> Mon B) :
  blind_to name m -> (forall a, blind_to name (f a)) ->
  blind_to name (bind m f).
Proof.
  intros Hm Hf s t H. unfold bind.
  destruct (Hm s t H) as [Hr Hst].
  destruct (m s) as [[e|a] s1], (m t) as [[e'|a'] t1]; simpl in *;
    try discriminate.
  - injection Hr as <-. now split.
  - injection Hr as <-. now apply Hf.
Qed.

Ltac solve_blind :=
  repeat first
    [ apply blind_ret
    | apply blind_lift
    | apply blind_import
    | apply blind_call
    | apply blind_getattr; discriminate
    | apply blind_bind; [|intros ?]
    | match goal with
      | |- blind_to _ (if ?b then _ else _) => destruct b
      end ].

Lemma load_data_blind (file : Path) (extra : option Dict) :
  blind_to "_parser_config" (load_data ext file extra).
Proof. unfold load_data, normalize, encode_and_caption. solve_blind. Qed.

(** Without a [parser_config] attribute the second half of [load_data]
    stops at line 77, unless the serializer has raised before. *)
Lemma encode_and_caption_fails (img : Image) (s : St) (keep : attrval) :
  self s !! "_keep_image" = Some keep ->
  self s !! "parser_config" = None ->
  class_attr ext "parser_config" = None ->
  exists e s',
    encode_and_caption ext img s = (inl e, s')
    /\ early_failure e
    /\ (exists l, log s' = (log s ++ l)%list
                  /\ forallb (fun ev => negb (is_captioning ev)) l = true)
    /\ ((truthy keep = true -> exists b w, img_2_b64 ext img (world s) = (inr b, w))
        -> e = AttributeError "parser_config").
Proof.
  intros Hk Hp Hc.
  unfold encode_and_caption, bind, getattr, call, ret. simpl.
  rewrite Hk. simpl.
  destruct (truthy keep); simpl.
  - destruct (img_2_b64 ext img (world s)) as [[x|b] w]; simpl.
    + do 2 eexists. split; [reflexivity|]. split; [exact I|]. split.
      * now exists [EvImg2b64 img].
      * intros Hb. destruct (Hb eq_refl) as (b & w' & [=]).
    + rewrite Hp, Hc. do 2 eexists. split; [reflexivity|].
      split; [reflexivity|]. split; [now exists [EvImg2b64 img]|easy].
  - rewrite Hp, Hc. do 2 eexists. split; [reflexivity|].
    split; [reflexivity|]. split; [|easy].
    exists []. now rewrite app_nil_r.
Qed.

(** C10. Construction stores the configuration under [_parser_config];
    [load_data] asks for [parser_config].  So, when the class hierarchy
    binds no [parser_config]: the instance has the first attribute and not
    the second; no call of [load_data] returns a document, each ends in an
    import error, an exception of the image library, or
    [AttributeError: parser_config], and none reaches the backend; a call
    whose imports, open, conversion and serialization all succeed ends in
    that [AttributeError]; and what was stored under [_parser_config] makes
    no difference to the outcome or to the effects of a call. *)
Theorem load_data_never_reads_stored_config
    (cfg : option Dict) (keep : bool) (prompt : string) (s0 s1 : St)
    (file : Path) (extra : option Dict) (s : St) :
  new ext cfg keep prompt s0 = (inr tt, s1) ->
  self s = self s1 ->
  class_attr ext "parser_config" = None ->
  (is_Some (self s !! "_parser_config") /\ self s !! "parser_config" = None)
  /\ (exists e s',
        load_data ext file extra s = (inl e, s')
        /\ early_failure e
        /\ (exists l, log s' = (log s ++ l)%list
                      /\ forallb (fun ev => negb (is_captioning ev)) l = true))
  /\ (forall img0 w1 img w2,
        importable ext "PIL" = true ->
        importable ext "gpt_index.img_utils" = true ->
        Image_open ext file (world s) = (inr img0, w1) ->
        normalized ext img0 w1 = Some (img, w2) ->
        (keep = true -> exists b w, img_2_b64 ext img w2 = (inr b, w)) ->
        fst (load_data ext file extra s) = inl (AttributeError "parser_config"))
  /\ (forall v,
        let t := {| self := <["_parser_config" := v]> (self s);
                    world := world s; log := log s |} in
        fst (load_data ext file extra t) = fst (load_data ext file extra s)
        /\ world (snd (load_data ext file extra t))
           = world (snd (load_data ext file extra s))
        /\ log (snd (load_data ext file extra t))
           = log (snd (load_data ext file extra s))).
Proof.
  intros Hnew Hself Hcls.
  apply new_attributes in Hnew as (Hk & _ & Hcfg & Hnone).
  rewrite <- Hself in Hk, Hcfg, Hnone.
  split; [now split|]. split; [|split].
  - unfold load_data.
    destruct (importable ext "PIL") eqn:Hpil;
      [erewrite bind_step by (apply import_ok; exact Hpil)
      |erewrite bind_fail by (apply import_err; exact Hpil); stop_early].
    destruct (importable ext "gpt_index.img_utils") eqn:Hgpt;
      [erewrite bind_step by (apply import_ok; exact Hgpt)
      |erewrite bind_fail by (apply import_err; exact Hgpt); stop_early].
    destruct (Image_open ext file (world s)) as [[x|img0] w1] eqn:Hopen;
      [erewrite bind_fail by (apply call_err; exact Hopen); stop_early
      |erewrite bind_step by (apply call_ok; exact Hopen)].
    unfold normalize.
    destruct (negb (String.eqb (Image_mode ext img0) "RGB")).
    + destruct (Image_convert ext img0 "RGB" w1) as [[x|img] w2] eqn:Hconv;
        [erewrite bind_fail by (apply call_err; exact Hconv); stop_early
        |erewrite bind_step by (apply call_ok; exact Hconv)].
      match goal with
      | |- context [encode_and_caption ext img ?st] =>
          destruct (encode_and_caption_fails img st (ABool keep) Hk Hnone Hcls)
            as (e & s' & -> & He & (l & Hl & Hcap) & _)
      end.
      exists e, s'. split; [reflexivity|]. split; [exact He|].
      simpl in Hl. eexists. split.
      * rewrite Hl, <- ?app_assoc. reflexivity.
      * simpl. exact Hcap.
    + erewrite bind_step by reflexivity.
      match goal with
      | |- context [encode_and_caption ext img0 ?st] =>
          destruct (encode_and_caption_fails img0 st (ABool keep) Hk Hnone Hcls)
            as (e & s' & -> & He & (l & Hl & Hcap) & _)
      end.
      exists e, s'. split; [reflexivity|]. split; [exact He|].
      simpl in Hl. eexists. split.
      * rewrite Hl, <- ?app_assoc. reflexivity.
      * simpl. exact Hcap.
  - intros img0 w1 img w2 Hpil Hgpt Hopen Hnorm Hb64.
    unfold load_data.
    erewrite bind_step by (apply import_ok; exact Hpil).
    erewrite bind_step by (apply import_ok; exact Hgpt).
    erewrite bind_step by (apply call_ok; exact Hopen).
    unfold normalize. unfold normalized in Hnorm.
    destruct (negb (String.eqb (Image_mode ext img0) "RGB")).
    + destruct (Image_convert ext img0 "RGB" w1) as [[x|img'] w'] eqn:Hconv;
        [discriminate Hnorm|].
      injection Hnorm as -> ->.
      erewrite bind_step by (apply call_ok; exact Hconv).
      match goal with
      | |- context [encode_and_caption ext img ?st] =>
          destruct (encode_and_caption_fails img st (ABool keep) Hk Hnone Hcls)
            as (e & s' & -> & _ & _ & He)
      end.
      simpl. f_equal. apply He. exact Hb64.
    + injection Hnorm as -> ->.
      erewrite bind_step by reflexivity.
      match goal with
      | |- context [encode_and_caption ext img ?st] =>
          destruct (encode_and_caption_fails img st (ABool keep) Hk Hnone Hcls)
            as (e & s' & -> & _ & _ & He)
      end.
      simpl. f_equal. apply He. exact Hb64.
  - intros v t.
    assert (Hst : same_but "_parser_config" t s).
    { subst t. repeat split; simpl.
      intros n Hn. now rewrite lookup_insert_ne. }
    destruct (load_data_blind file extra t s Hst) as [Hr (Hw & Hl & _)].
    now repeat split.
Qed.

(** *** A small program logic for code that does not write [self] *)

Lemma runs_ret {A} (d : gmap string attrval) (a : A)
    (R : A -> Prop) (E : exn -> Prop) (P : Ev -> Prop) :
  R a -> runs d (@ret W Err Image Obj A a) R E P.
Proof.
  intros HR s Hs. simpl. split; [easy|]. split; [|easy].
  exists []. now rewrite app_nil_r.
Qed.

Lemma runs_raise {A} (d : gmap string attrval) (e : exn)
    (R : A -> Prop) (E : exn -> Prop) (P : Ev -> Prop) :
  E e -> runs d (@raise W Err Image Obj A e) R E P.
Proof.
  intros HE s Hs. simpl. split; [easy|]. split; [|easy].
  exists []. now rewrite app_nil_r.
Qed.

Lemma runs_lift {A} (d : gmap string attrval) (r : exn + A)
    (E : exn -> Prop) (P : Ev -> Prop) :
  (forall e, r = inl e -> E e) ->
  runs d (@lift W Err Image Obj A r) (fun a => r = inr a) E P.
Proof.
  intros HE s Hs. simpl. split; [easy|]. split.
  - exists []. now rewrite app_nil_r.
  - destruct r; auto.
Qed.

Lemma runs_getattr (d : gmap string attrval) (name : string)
    (E : exn -> Prop) (P : Ev -> Prop) :
  (lookup_attr ext d name = None -> E (AttributeError name)) ->
  runs d (getattr ext name) (fun v => lookup_attr ext d name = Some v) E P.
Proof.
  intros HE s Hs. unfold getattr, lookup_attr in *. rewrite Hs.
  destruct (d !! name) as [v|]; [|destruct (class_attr ext name) as [v|]];
    simpl; (split; [easy|]; split; [exists []; now rewrite app_nil_r|]);
    auto.
Qed.

Lemma runs_import (d : gmap string attrval) (m : string)
    (E : exn -> Prop) (P : Ev -> Prop) :
  P (EvImport m) ->
  (importable ext m = false -> forall msg, E (ImportError msg)) ->
  runs d (import_ ext m) (fun _ => importable ext m = true) E P.
Proof.
  intros HP HE s Hs. unfold import_. simpl. split; [easy|]. split.
  - exists [EvImport m]. split; [easy|]. now constructor.
  - destruct (importable ext m); simpl; auto.
Qed.

Lemma runs_call {A} (d : gmap string attrval) (e : Ev)
    (f : W -> (Err + A) * W) (E : exn -> Prop) (P : Ev -> Prop) :
  P e ->
  (forall x, E (Propagated x)) ->
  runs d (call e f) (fun a => exists w w', f w = (inr a, w')) E P.
Proof.
  intros HP HE s Hs. unfold call.
  destruct (f (world s)) as [[x|a] w] eqn:Hf; simpl;
    (split; [easy|]; split;
     [exists [e]; split; [easy|]; now constructor|]); eauto.
Qed.

Lemma runs_query {A} (d : gmap string attrval) (e : Ev) (f : W -> A)
    (E : exn -> Prop) (P : Ev -> Prop) :
  P e -> runs d (@query W Err Image Obj A e f) (fun _ => True) E P.
Proof.
  intros HP s Hs. unfold query. simpl. split; [easy|]. split; [|easy].
  exists [e]. split; [easy|]. now constructor.
Qed.

Lemma runs_bind {A B} (d : gmap string attrval) (m : Mon A) (f : A -> Mon B)
    (R1 : A -> Prop) (R : B -> Prop) (E : exn -> Prop) (P : Ev -> Prop) :
  runs d m R1 E P ->
  (forall a, R1 a -> runs d (f a) R E P) ->
  runs d (bind m f) R E P.
Proof.
  intros Hm Hf s Hs. unfold bind.
  destruct (Hm s Hs) as (Hs1 & (l & Hl & HP) & Hr).
  destruct (m s) as [[e|a] s1]; simpl in *.
  - split; [easy|]. split; [now exists l|easy].
  - destruct (Hf a Hr s1 Hs1) as (Hs2 & (l' & Hl' & HP') & Hr').
    split; [easy|]. split; [|easy].
    exists (l ++ l')%list. split.
    + now rewrite Hl', Hl, app_assoc.
    + now apply Forall_app.
Qed.

Lemma runs_except {A} (d : gmap string attrval) (body handler : Mon A)
    (R : A -> Prop) (E0 E : exn -> Prop) (P : Ev -> Prop) :
  runs d body R E0 P ->
  (forall e, E0 e -> match e with ImportError _ => True | _ => E e end) ->
  runs d handler R E P ->
  runs d (except_ImportError body handler) R E P.
Proof.
  intros Hb HE Hh s Hs. unfold except_ImportError.
  destruct (Hb s Hs) as (Hs1 & (l & Hl & HP) & Hr).
  destruct (body s) as [[e|a] s1]; simpl in *.
  - specialize (HE e Hr).
    destruct e; simpl;
      try (split; [easy|]; split; [now exists l|easy]).
    destruct (Hh s1 Hs1) as (Hs2 & (l' & Hl' & HP') & Hr').
    split; [easy|]. split; [|easy].
    exists (l ++ l')%list. split.
    + now rewrite Hl', Hl, app_assoc.
    + now apply Forall_app.
  - split; [easy|]. split; [now exists l|easy].
Qed.

Lemma runs_conseq {A} (d : gmap string attrval) (m : Mon A)
    (R R' : A -> Prop) (E E' : exn -> Prop) (P P' : Ev -> Prop) :
  runs d m R E P ->
  (forall a, R a -> R' a) -> (forall e, E e -> E' e) ->
  (forall ev, P ev -> P' ev) ->
  runs d m R' E' P'.
Proof.
  intros Hm HR HE HP s Hs.
  destruct (Hm s Hs) as (Hs1 & (l & Hl & HPl) & Hr).
  split; [easy|]. split.
  - exists l. split; [easy|]. eapply Forall_impl; eauto.
  - destruct (fst (m s)); auto.
Qed.

Lemma runs_call_any {A} (d : gmap string attrval) (e : Ev)
    (f : W -> (Err + A) * W) (E : exn -> Prop) (P : Ev -> Prop) :
  P e ->
  (forall x, E (Propagated x)) ->
  runs d (call e f) (fun _ => True) E P.
Proof.
  intros HP HE.
  apply (runs_conseq d _ _ _ E E P P (runs_call d e f E P HP HE)); auto.
Qed.

Lemma getitem_inr (v : attrval) (k : string) (x : pyval) :
  @getitem Err Obj v k = inr x -> exists c, v = ADict c /\ c !! k = Some x.
Proof.
  destruct v as [| | |c]; simpl; try discriminate.
  destruct (c !! k) as [y|] eqn:Hk; [|discriminate].
  intros [= <-]. eauto.
Qed.

Lemma getitem_inl (v : @attrval Obj) (k : string) (e : @exn Err) :
  getitem v k = inl e ->
  (exists c, v = ADict c /\ c !! k = None /\ e = KeyError k)
  \/ ((forall c, v <> ADict c) /\ exists msg, e = TypeError msg).
Proof.
  destruct v as [| | |c]; simpl.
  - intros [= <-]. right. split; [discriminate|eauto].
  - intros [= <-]. right. split; [discriminate|eauto].
  - intros [= <-]. right. split; [discriminate|eauto].
  - destruct (c !! k) eqn:Hk; [discriminate|].
    intros [= <-]. left. eauto.
Qed.

(** *** What every call of [load_data] obeys *)

Lemma config_complete_intro (d : gmap string attrval) (c : Dict)
    (m p dev dt : pyval) :
  lookup_attr ext d "parser_config" = Some (ADict c) ->
  c !! "model" = Some m -> c !! "processor" = Some p ->
  c !! "device" = Some dev -> c !! "dtype" = Some dt ->
  config_complete ext d.
Proof.
  intros Hc Hm Hp Hdev Hdt. exists c. split; [exact Hc|].
  unfold config_keys. intros k Hk.
  rewrite !elem_of_cons, elem_of_nil in Hk.
  destruct Hk as [->|[->|[->|[->|[]]]]]; eauto.
Qed.

(** The key just found absent is the first absent one: those read before
    it were found. *)
Ltac first_missing_key :=
  unfold missing_key, config_keys; simpl;
  repeat match goal with
         | H : ?c !! ?k = _ |- context [?c !! ?k] => rewrite H
         end;
  reflexivity.

(** One subscript of [self.parser_config], after [c] is known to be the
    dictionary the attribute resolves to. *)
Ltac read_key :=
  eapply runs_bind;
  [apply runs_getattr; intros Hnone; simpl; split; [set_solver|exact Hnone]
  |intros ? Hagain; cbv beta in Hagain];
  match goal with
  | H1 : lookup_attr _ _ "parser_config" = Some (ADict ?c),
    H2 : lookup_attr _ _ "parser_config" = Some ?v |- _ =>
      rewrite H1 in H2; injection H2 as <-
  end;
  eapply runs_bind;
  [apply runs_lift; intros e He; simpl in He;
   match type of He with
   | context [match ?x with Some _ => _ | None => _ end] =>
       destruct x eqn:Hk; [discriminate He|];
       injection He as <-; simpl; eexists; split; [eassumption|];
       first_missing_key
   end
  |intros ? Hgot; cbv beta in Hgot;
   apply getitem_inr in Hgot as (? & [= <-] & Hgot)].

Lemma load_data_runs (d : gmap string attrval) (file : Path)
    (extra : option Dict) :
  runs d (load_data ext file extra)
    (fun _ => config_complete ext d)
    (load_data_cause ext d)
    (fun e => load_data_event ext d file e
              /\ (is_captioning e = true -> config_complete ext d)).
Proof.
  unfold load_data.
  eapply runs_bind.
  { apply runs_import; [split; [simpl; auto|discriminate]|].
    intros H msg. simpl. auto. }
  intros _ _.
  eapply runs_bind.
  { apply runs_import; [split; [simpl; auto|discriminate]|].
    intros H msg. simpl. auto. }
  intros _ _.
  eapply runs_bind.
  { apply runs_call; [split; [reflexivity|discriminate]|intros x; exact I]. }
  intros img0 _.
  eapply runs_bind with (R1 := fun _ => True).
  { unfold normalize.
    destruct (negb (String.eqb (Image_mode ext img0) "RGB")).
    - apply runs_call_any;
        [split; [reflexivity|discriminate]|intros x; exact I].
    - now apply runs_ret. }
  intros img _. unfold encode_and_caption.
  eapply runs_bind.
  { apply runs_getattr. intros Hnone. simpl. split; [set_solver|exact Hnone]. }
  intros keep Hkeep.
  eapply runs_bind with (R1 := fun _ => True).
  { destruct (truthy keep) eqn:Ht.
    - eapply runs_bind.
      + apply runs_call;
          [split; [simpl; exists keep; auto|discriminate]|intros x; exact I].
      + intros b _. now apply runs_ret.
    - now apply runs_ret. }
  intros image_str _.
  eapply runs_bind.
  { apply runs_getattr. intros Hnone. simpl. split; [set_solver|exact Hnone]. }
  intros cfg Hcfg.
  eapply runs_bind.
  { apply runs_lift. intros e He.
    apply getitem_inl in He as [(c & -> & Hk & ->)|(Hnd & msg & ->)]; simpl.
    - exists c. split; [exact Hcfg|]. first_missing_key.
    - exists cfg. auto. }
  intros model Hmodel. apply getitem_inr in Hmodel as (c & -> & Hmodel).
  read_key. rename Hgot into Hproc.
  read_key. rename Hgot into Hdev.
  read_key. rename Hgot into Hdt.
  pose proof (config_complete_intro d c _ _ _ _ Hcfg Hmodel Hproc Hdev Hdt)
    as Hall.
  eapply runs_bind.
  { apply runs_call; [split; [simpl; eauto 10|auto]|intros x; exact I]. }
  intros _ _.
  eapply runs_bind.
  { apply runs_getattr. intros Hnone. simpl. split; [set_solver|exact Hnone]. }
  intros prompt Hprompt.
  eapply runs_bind.
  { apply runs_call; [split; [simpl; eauto 10|auto]|intros x; exact I]. }
  intros in1 _.
  eapply runs_bind.
  { apply runs_call; [split; [simpl; eauto 10|auto]|intros x; exact I]. }
  intros in2 _.
  eapply runs_bind.
  { apply runs_call; [split; [simpl; eauto 10|auto]|intros x; exact I]. }
  intros out _.
  eapply runs_bind.
  { apply runs_call; [split; [simpl; eauto 10|auto]|intros x; exact I]. }
  intros seq _.
  eapply runs_bind.
  { apply runs_call; [split; [simpl; eauto 10|auto]|intros x; exact I]. }
  intros t _.
  now apply runs_ret.
Qed.


(** X5. Whatever its outcome, a call of [load_data file] imports nothing
    but PIL and gpt_index.img_utils, never asks for CUDA and never downloads
    from the hub, opens no file but [file] and converts to no mode but
    ["RGB"]. *)
Theorem load_data_footprint (file : Path) (extra : option Dict) (s : St) :
  exists l,
    log (snd (load_data ext file extra s)) = (log s ++ l)%list
    /\ Forall (load_data_touches file) l.
Proof.
  destruct (load_data_runs (self s) file extra s eq_refl)
    as (_ & (l & Hl & HP) & _).
  exists l. split; [exact Hl|].
  eapply Forall_impl; [exact HP|].
  intros e [He _]. now destruct e.
Qed.

(** X6. When [self.parser_config] resolves to the dictionary [c] and
    [self._prompt] to [q], every backend call of [load_data], in failing
    calls too, is made on [c]'s model and processor with [c]'s device and
    dtype, and the processor is given [q]. *)
Theorem load_data_backend_uses_config
    (file : Path) (extra : option Dict) (s : St) (c : Dict) (q : attrval) :
  lookup_attr ext (self s) "parser_config" = Some (ADict c) ->
  lookup_attr ext (self s) "_prompt" = Some q ->
  exists l,
    log (snd (load_data ext file extra s)) = (log s ++ l)%list
    /\ Forall (backend_call_from c q) l.
Proof.
  intros Hc Hq.
  destruct (load_data_runs (self s) file extra s eq_refl)
    as (_ & (l & Hl & HP) & _).
  exists l. split; [exact Hl|].
  eapply Forall_impl; [exact HP|].
  intros e [He _]. destruct e; simpl in *; try exact I.
  - destruct He as (c' & Hc' & Hm & Hd).
    rewrite Hc in Hc'. injection Hc' as <-. now split.
  - destruct He as [(c' & Hc' & Hp) Hq'].
    rewrite Hc in Hc'. injection Hc' as <-.
    rewrite Hq in Hq'. injection Hq' as <-. now split.
  - destruct He as (c' & Hc' & Hd & Ht).
    rewrite Hc in Hc'. injection Hc' as <-. now split.
  - destruct He as (c' & Hc' & Hm).
    rewrite Hc in Hc'. now injection Hc' as <-.
  - destruct He as (c' & Hc' & Hp).
    rewrite Hc in Hc'. now injection Hc' as <-.
Qed.

Lemma new_lookup (cfg : option Dict) (keep : bool) (prompt : string)
    (s0 s1 : St) :
  new ext cfg keep prompt s0 = (inr tt, s1) ->
  lookup_attr ext (self s1) "_keep_image" = Some (ABool keep)
  /\ lookup_attr ext (self s1) "_prompt" = Some (AStr prompt).
Proof.
  intros H. apply new_attributes in H as (Hk & Hp & _).
  unfold lookup_attr. now rewrite Hk, Hp.
Qed.

(** X7. A reader built with prompt [p] hands [p] to the processor in every
    call, even when the class binds a [_prompt] of its own: the instance
    attribute set by [__init__] is the one [load_data] reads. *)
Theorem load_data_prompt_as_constructed
    (cfg : option Dict) (keep : bool) (prompt : string) (s0 s1 : St)
    (file : Path) (extra : option Dict) (s : St) :
  new ext cfg keep prompt s0 = (inr tt, s1) ->
  self s = self s1 ->
  exists l,
    log (snd (load_data ext file extra s)) = (log s ++ l)%list
    /\ Forall (fun e => forall p i q, e = EvProcessor p i q -> q = AStr prompt)
         l.
Proof.
  intros Hnew Hself. apply new_lookup in Hnew as [_ Hq].
  rewrite <- Hself in Hq.
  destruct (load_data_runs (self s) file extra s eq_refl)
    as (_ & (l & Hl & HP) & _).
  exists l. split; [exact Hl|].
  eapply Forall_impl; [exact HP|].
  intros e [He _] p i q ->. simpl in He. destruct He as [_ Hq'].
  rewrite Hq in Hq'. now injection Hq' as <-.
Qed.

(** X8. A reader built with [keep_image = False] never calls [img_2_b64],
    in no call and whatever the call's outcome. *)
Theorem load_data_no_serialization_without_keep
    (cfg : option Dict) (prompt : string) (s0 s1 : St)
    (file : Path) (extra : option Dict) (s : St) :
  new ext cfg false prompt s0 = (inr tt, s1) ->
  self s = self s1 ->
  exists l,
    log (snd (load_data ext file extra s)) = (log s ++ l)%list
    /\ forallb (fun e => negb (is_serialization e)) l = true.
Proof.
  intros Hnew Hself. apply new_lookup in Hnew as [Hk _].
  rewrite <- Hself in Hk.
  destruct (load_data_runs (self s) file extra s eq_refl)
    as (_ & (l & Hl & HP) & _).
  exists l. split; [exact Hl|].
  apply forallb_forall. intros e Hin.
  rewrite Forall_forall in HP. apply list_elem_of_In in Hin.
  destruct (HP e Hin) as [He _].
  destruct e; try reflexivity. simpl in He.
  destruct He as (k & Hk' & Ht). rewrite Hk in Hk'.
  injection Hk' as <-. discriminate Ht.
Qed.

(** X9. Unless [self.parser_config] resolves to a dictionary that has all
    of model, processor, device and dtype, a call of [load_data] returns no
    document and makes no call on the backend: the four subscripts come
    before [model.to(device)]. *)
Theorem load_data_needs_complete_config
    (file : Path) (extra : option Dict) (s : St) :
  ~ config_complete ext (self s) ->
  (exists e, fst (load_data ext file extra s) = inl e)
  /\ exists l,
       log (snd (load_data ext file extra s)) = (log s ++ l)%list
       /\ forallb (fun e => negb (is_captioning e)) l = true.
Proof.
  intros Hnot.
  destruct (load_data_runs (self s) file extra s eq_refl)
    as (_ & (l & Hl & HP) & Hr).
  split.
  - destruct (fst (load_data ext file extra s)) as [e|r]; [now exists e|].
    now destruct Hnot.
  - exists l. split; [exact Hl|].
    apply forallb_forall. intros e Hin.
    rewrite Forall_forall in HP. apply list_elem_of_In in Hin.
    destruct (HP e Hin) as [_ Hc].
    destruct (is_captioning e); [|reflexivity].
    now destruct Hnot; apply Hc.
Qed.

(** *** The backend calls of a successful call *)




Lemma new_missing_dependency_run
    (m : string) (keep : bool) (prompt : string) (s : St) :
  first_missing ext = Some m ->
  exists s',
    new ext None keep prompt s = (inl (ImportError (remedy m)), s')
    /\ self s' = ∅
    /\ world s' = world s.
Proof.
  intros Hm. apply required_modules_cases in Hm.
  unfold new, __init__, default_parser_config, bind, except_ImportError,
    import_, raise. simpl.
  destruct Hm
    as [[-> H1]|[[-> [H1 H2]]|[[-> [H1 [H2 H3]]]|[-> [H1 [H2 [H3 H4]]]]]]];
    rewrite ?H1, ?H2, ?H3, ?H4; simpl;
    (eexists; split; [reflexivity|]; simpl; now split).
Qed.

(** X11. If PIL or gpt_index.img_utils cannot be imported, every call of
    [load_data] raises [ImportError] before the file is opened, with
    [keep_image] false as well (the serializer is imported
    unconditionally); the world and the reader are untouched. *)
Theorem load_data_missing_local_import
    (file : Path) (extra : option Dict) (s : St) :
  importable ext "PIL" = false
  \/ importable ext "gpt_index.img_utils" = false ->
  exists msg s',
    load_data ext file extra s = (inl (ImportError msg), s')
    /\ self s' = self s
    /\ world s' = world s
    /\ exists l, log s' = (log s ++ l)%list /\ forallb is_import l = true.
Proof.
  intros Hmiss. unfold load_data.
  destruct (importable ext "PIL") eqn:Hpil.
  - destruct Hmiss as [Hmiss|Hgpt]; [discriminate Hmiss|].
    erewrite bind_step by (apply import_ok; exact Hpil).
    erewrite bind_fail by (apply import_err; exact Hgpt).
    do 2 eexists. split; [reflexivity|]. simpl.
    repeat split.
    exists [EvImport "PIL"; EvImport "gpt_index.img_utils"].
    split; [now rewrite <- app_assoc|reflexivity].
  - erewrite bind_fail by (apply import_err; exact Hpil).
    do 2 eexists. split; [reflexivity|]. simpl.
    repeat split. now exists [EvImport "PIL"].
Qed.

(** *** More on construction *)

Lemma first_missing_none :
  first_missing ext = None ->
  importable ext "torch" = true /\ importable ext "transformers" = true
  /\ importable ext "sentencepiece" = true /\ importable ext "PIL" = true.
Proof.
  unfold first_missing, required_modules. simpl.
  destruct (importable ext "torch"); simpl; [|discriminate].
  destruct (importable ext "transformers"); simpl; [|discriminate].
  destruct (importable ext "sentencepiece"); simpl; [|discriminate].
  destruct (importable ext "PIL"); simpl; [|discriminate].
  auto.
Qed.

(** The default configuration when the four libraries are there: the
    outcome is that of the two downloads. *)
Lemma default_parser_config_downloads (s : St) :
  first_missing ext = None ->
  let dt := if cuda_is_available ext (world s) then float16 else float32 in
  let device := if cuda_is_available ext (world s) then "cuda" else "cpu" in
  let checked :=
    (log s ++ [EvImport "torch"; EvImport "transformers";
               EvImport "sentencepiece"; EvImport "PIL";
               EvCudaIsAvailable; EvCudaIsAvailable;
               EvFromPretrained "Blip2Processor" hub_name None])%list in
  default_parser_config ext s
  = match Blip2Processor_from_pretrained ext hub_name (world s) with
    | (inl x, w1) =>
        (inl (Propagated x), {| self := self s; world := w1; log := checked |})
    | (inr p, w1) =>
        let downloaded :=
          (checked ++ [EvFromPretrained "Blip2ForConditionalGeneration"
                         hub_name (Some dt)])%list in
        match Blip2ForConditionalGeneration_from_pretrained ext hub_name dt w1
        with
        | (inl x, w2) =>
            (inl (Propagated x),
             {| self := self s; world := w2; log := downloaded |})
        | (inr m, w2) =>
            (inr (<["processor" := PObj p]>
                  (<["model" := PObj m]>
                   (<["device" := PStr device]>
                    (<["dtype" := PDtype dt]> ∅)))),
             {| self := self s; world := w2; log := downloaded |})
        end
    end.
Proof.
  intros Hnone. apply first_missing_none in Hnone as (H1 & H2 & H3 & H4).
  unfold default_parser_config, bind, except_ImportError, import_, query,
    call, ret. simpl.
  rewrite H1, H2, H3, H4. simpl.
  destruct (Blip2Processor_from_pretrained ext hub_name (world s))
    as [[x|p] w1]; simpl.
  - rewrite <- ?app_assoc. reflexivity.
  - destruct (Blip2ForConditionalGeneration_from_pretrained ext hub_name
                (if cuda_is_available ext (world s) then float16 else float32)
                w1) as [[x|m] w2]; simpl;
      rewrite <- ?app_assoc; reflexivity.
Qed.

(** X1. With the four libraries importable and both downloads succeeding,
    default construction succeeds.  It has then imported the four libraries
    in order, asked for CUDA, downloaded the processor and after it, in the
    world the first download left, the model, both under the same hub name;
    the stored dictionary has exactly the keys processor, model, device and
    dtype. *)
Theorem new_default_builds
    (keep : bool) (prompt : string) (s : St) (p m : Obj) (w1 w2 : W) :
  first_missing ext = None ->
  let dt := if cuda_is_available ext (world s) then float16 else float32 in
  let device := if cuda_is_available ext (world s) then "cuda" else "cpu" in
  Blip2Processor_from_pretrained ext hub_name (world s) = (inr p, w1) ->
  Blip2ForConditionalGeneration_from_pretrained ext hub_name dt w1
  = (inr m, w2) ->
  exists c : Dict,
    new ext None keep prompt s
    = (inr tt,
       {| self := <["_prompt" := AStr prompt]>
                  (<["_keep_image" := ABool keep]>
                   (<["_parser_config" := ADict c]> ∅));
          world := w2;
          log := (log s ++ [EvImport "torch"; EvImport "transformers";
                            EvImport "sentencepiece"; EvImport "PIL";
                            EvCudaIsAvailable; EvCudaIsAvailable;
                            EvFromPretrained "Blip2Processor" hub_name None;
                            EvFromPretrained "Blip2ForConditionalGeneration"
                              hub_name (Some dt)])%list |})
    /\ c !! "processor" = Some (PObj p) /\ c !! "model" = Some (PObj m)
    /\ c !! "device" = Some (PStr device) /\ c !! "dtype" = Some (PDtype dt)
    /\ dom c = list_to_set ["processor"; "model"; "device"; "dtype"]
    /\ missing_key c = None.
Proof.
  intros Hnone dt device Hp Hm.
  eexists. split.
  - unfold new, __init__.
    erewrite bind_step.
    2:{ rewrite (default_parser_config_downloads _ Hnone). simpl.
        rewrite Hp. fold dt. rewrite Hm. reflexivity. }
    unfold bind, setattr. simpl. rewrite <- ?app_assoc. reflexivity.
  - repeat split;
      first [reflexivity|rewrite !dom_insert_L, dom_empty_L; set_solver].
Qed.

(** X2. Construction with an explicit configuration never fails.  When
    default construction fails, the instance has no attribute, and the
    exception is the message of the first missing library or, all four
    being there, the exception of the processor download or (the processor
    having been downloaded) of the model download. *)
Theorem new_failure_cases
    (cfg : option Dict) (keep : bool) (prompt : string) (s s' : St)
    (e : exn) :
  new ext cfg keep prompt s = (inl e, s') ->
  cfg = None
  /\ self s' = ∅
  /\ match first_missing ext with
     | Some m => e = ImportError (remedy m) /\ world s' = world s
     | None =>
         exists x,
           e = Propagated x
           /\ ((exists w1,
                   Blip2Processor_from_pretrained ext hub_name (world s)
                   = (inl x, w1))
               \/ (exists p w1 w2,
                      Blip2Processor_from_pretrained ext hub_name (world s)
                      = (inr p, w1)
                      /\ Blip2ForConditionalGeneration_from_pretrained ext
                           hub_name
                           (if cuda_is_available ext (world s)
                            then float16 else float32) w1
                         = (inl x, w2)))
     end.
Proof.
  intros H. destruct cfg as [c|]; [discriminate H|].
  split; [reflexivity|].
  destruct (first_missing ext) as [m|] eqn:Hm.
  - destruct (new_missing_dependency_run m keep prompt s Hm)
      as (t & Ht & Hself & Hw).
    rewrite Ht in H. injection H as <- <-. auto.
  - unfold new, __init__ in H.
    pose proof (default_parser_config_downloads
                  {| self := ∅; world := world s; log := log s |} Hm) as Hd.
    simpl in Hd. unfold bind at 1 in H. rewrite Hd in H. clear Hd.
    destruct (Blip2Processor_from_pretrained ext hub_name (world s))
      as [[x|p] w1] eqn:Hp.
    + injection H as <- <-. split; [reflexivity|]. exists x. eauto.
    + destruct (Blip2ForConditionalGeneration_from_pretrained ext hub_name
                  (if cuda_is_available ext (world s)
                   then float16 else float32) w1) as [[x|mo] w2] eqn:Hmo.
      * injection H as <- <-. split; [reflexivity|]. exists x.
        split; [reflexivity|]. right. eauto.
      * discriminate H.
Qed.

Lemma getattr_of_lookup (name : string) (s : St) (v : attrval) :
  lookup_attr ext (self s) name = Some v ->
  getattr ext name s = (inr v, s).
Proof.
  unfold lookup_attr, getattr.
  destruct (self s !! name) as [v'|].
  - now intros [= ->].
  - now intros ->.
Qed.

Lemma getitem_found (c : Dict) (k : string) (x : pyval) :
  c !! k = Some x -> @getitem Err Obj (ADict c) k = inr x.
Proof. intros H. simpl. now rewrite H. Qed.

(** X12. The converse of X10: when the two imports succeed, the file opens,
    the conversion and the serialization (where they are needed) do not
    raise, [self.parser_config] resolves to a dictionary with the four
    keys, [self._prompt] resolves, and each of the six backend calls
    succeeds in the world the previous one left, [load_data] returns the
    document whose text is the decoded caption and whose image is the
    serialized string, in the world the last call left. *)
Theorem load_data_succeeds
    (file : Path) (extra : option Dict) (s : St)
    (img0 img : Image) (k prompt : attrval) (i : option string) (c : Dict)
    (model processor device dt : pyval) (in1 in2 out tokens : Obj)
    (t : string) (w1 w2 w3 w4 w5 w6 w7 w8 w9 : W) :
  importable ext "PIL" = true ->
  importable ext "gpt_index.img_utils" = true ->
  Image_open ext file (world s) = (inr img0, w1) ->
  normalized ext img0 w1 = Some (img, w2) ->
  lookup_attr ext (self s) "_keep_image" = Some k ->
  serialized ext k img w2 = Some (i, w3) ->
  lookup_attr ext (self s) "parser_config" = Some (ADict c) ->
  c !! "model" = Some model -> c !! "processor" = Some processor ->
  c !! "device" = Some device -> c !! "dtype" = Some dt ->
  lookup_attr ext (self s) "_prompt" = Some prompt ->
  model_to ext model device w3 = (inr tt, w4) ->
  processor_call ext processor img prompt w4 = (inr in1, w5) ->
  inputs_to ext in1 device dt w5 = (inr in2, w6) ->
  model_generate ext model in2 w6 = (inr out, w7) ->
  getitem0 ext out w7 = (inr tokens, w8) ->
  processor_decode ext processor tokens w8 = (inr t, w9) ->
  exists s',
    load_data ext file extra s
    = (inr (RDoc {| text := Some t; image := i; extra_info := None |}), s')
    /\ world s' = w9
    /\ self s' = self s.
Proof.
  intros Hpil Hgpt Hopen Hnorm Hk Hser Hc Hm Hp Hd Ht Hq F1 F2 F3 F4 F5 F6.
  unfold load_data.
  erewrite bind_step by (apply import_ok; exact Hpil).
  erewrite bind_step by (apply import_ok; exact Hgpt).
  erewrite bind_step by (apply call_ok; exact Hopen).
  assert (Hn : exists l,
             normalize ext img0
               {| self := self (record (EvImport "gpt_index.img_utils")
                                  (record (EvImport "PIL") s));
                  world := w1;
                  log := (log (record (EvImport "gpt_index.img_utils")
                                 (record (EvImport "PIL") s))
                          ++ [EvImageOpen file])%list |}
             = (inr img, {| self := self s; world := w2; log := l |})).
  { unfold normalize, normalized in *.
    destruct (negb (String.eqb (Image_mode ext img0) "RGB")).
    - destruct (Image_convert ext img0 "RGB" w1) as [[x|img'] w'] eqn:Hconv;
        [discriminate Hnorm|]. injection Hnorm as -> ->.
      eexists. erewrite call_ok by exact Hconv. reflexivity.
    - injection Hnorm as -> ->. eexists. reflexivity. }
  destruct Hn as (l & Hn).
  erewrite bind_step by exact Hn.
  unfold encode_and_caption.
  erewrite bind_step by (apply getattr_of_lookup; exact Hk).
  assert (Hs : exists l',
             (if truthy k
              then bind (call (EvImg2b64 img) (img_2_b64 ext img))
                     (fun b => ret (Some b))
              else ret None)
               {| self := self s; world := w2; log := l |}
             = (inr i, {| self := self s; world := w3; log := l' |})).
  { unfold serialized in Hser. destruct (truthy k).
    - destruct (img_2_b64 ext img w2) as [[x|b] w'] eqn:Hb;
        [discriminate Hser|]. injection Hser as <- <-.
      eexists. erewrite bind_step by (apply call_ok; exact Hb). reflexivity.
    - injection Hser as <- <-. eexists. reflexivity. }
  destruct Hs as (l' & Hs).
  erewrite bind_step by exact Hs.
  erewrite bind_step by (apply getattr_of_lookup; exact Hc).
  erewrite bind_step by (unfold lift; rewrite (getitem_found _ _ _ Hm);
                         reflexivity).
  erewrite bind_step by (apply getattr_of_lookup; exact Hc).
  erewrite bind_step by (unfold lift; rewrite (getitem_found _ _ _ Hp);
                         reflexivity).
  erewrite bind_step by (apply getattr_of_lookup; exact Hc).
  erewrite bind_step by (unfold lift; rewrite (getitem_found _ _ _ Hd);
                         reflexivity).
  erewrite bind_step by (apply getattr_of_lookup; exact Hc).
  erewrite bind_step by (unfold lift; rewrite (getitem_found _ _ _ Ht);
                         reflexivity).
  erewrite bind_step by (apply call_ok; exact F1).
  erewrite bind_step by (apply getattr_of_lookup; exact Hq).
  erewrite bind_step by (apply call_ok; exact F2).
  erewrite bind_step by (apply call_ok; exact F3).
  erewrite bind_step by (apply call_ok; exact F4).
  erewrite bind_step by (apply call_ok; exact F5).
  erewrite bind_step by (apply call_ok; exact F6).
  eexists. split; [reflexivity|]. now split.
Qed.

Lemma default_parser_config_footprint :
  appends construction_event (default_parser_config ext).
Proof.
  unfold default_parser_config.
  repeat first
    [ apply appends_bind; [|intros ?]
    | apply appends_except
    | apply appends_raise
    | apply appends_ret
    | apply appends_import; simpl; set_solver
    | apply appends_query; exact I
    | apply appends_call; simpl; now auto ].
Qed.

(** X3. Construction, whatever its arguments and its outcome, calls out
    only to import the four libraries, to ask for CUDA and to download the
    two BLIP-2 classes under the one hub name: it opens no image and does
    not touch the backend.  With an explicit configuration it makes no call
    at all. *)
Theorem new_footprint
    (cfg : option Dict) (keep : bool) (prompt : string) (s : St) :
  exists l,
    log (snd (new ext cfg keep prompt s)) = (log s ++ l)%list
    /\ Forall construction_event l
    /\ match cfg with Some _ => l = [] | None => True end.
Proof.
  unfold new, __init__. destruct cfg as [c|].
  - exists []. simpl. rewrite app_nil_r. now repeat split.
  - destruct (default_parser_config_footprint
                {| self := ∅; world := world s; log := log s |})
      as [_ (l & Hl & HP)].
    exists l. split; [|now split].
    unfold bind at 1.
    destruct (default_parser_config ext
                {| self := ∅; world := world s; log := log s |})
      as [[e|c] s1]; simpl in *; exact Hl.
Qed.

End Properties.

(** ** The theorems on concrete runs *)

Section Runs.

Import Demo.


Lemma new_missing_dependency_witness :
  first_missing no_sentencepiece = Some "sentencepiece"
  /\ exists s',
       new no_sentencepiece None false default_prompt start
       = (inl (ImportError
                 "sentencepiece is required for using BLIP2 model: `pip install sentencepiece`"),
          s')
       /\ self s' = ∅.
Proof.
  split; [reflexivity|].
  destruct (new_missing_dependency no_sentencepiece "sentencepiece" false
              default_prompt start eq_refl) as (s' & H & Hs & _).
  exists s'. split; [exact H|exact Hs].
Defined.

Lemma new_default_device_dtype_witness :
  exists cfg : gmap string (@pyval Handle),
    self (after (new with_gpu None false default_prompt start))
      !! "_parser_config" = Some (ADict cfg)
    /\ cfg !! "device" = Some (PStr "cuda")
    /\ cfg !! "dtype" = Some (PDtype float16).
Proof.
  destruct (new_default_device_dtype with_gpu false default_prompt start
              (after (new with_gpu None false default_prompt start))
              eq_refl) as (cfg & H & Hdev & Hdt & _).
  exists cfg. split; [exact H|]. split; [exact Hdev|exact Hdt].
Defined.


(** C7, as stated, fails: the caller's metadata is not on the returned
    document. *)
Lemma load_data_drops_extra_info :
  exists d s',
    load_data patched "photo.png" (Some metadata) (reader patched false)
    = (inr (RDoc d), s')
    /\ extra_info d <> Some metadata.
Proof.
  exists (doc "a red square" None),
    (after (load_data patched "photo.png" (Some metadata)
              (reader patched false))).
  split; [vm_compute; reflexivity|discriminate].
Qed.

Lemma load_data_undecodable_path_witness :
  exists s',
    load_data plain "notes.txt" None (reader plain false)
    = (inl (Propagated "UnidentifiedImageError"), s')
    /\ self s' = self (reader plain false)
    /\ log s' = [EvImport "PIL"; EvImport "gpt_index.img_utils";
                 EvImageOpen "notes.txt"].
Proof.
  destruct (load_data_undecodable_path plain "notes.txt" None
              (reader plain false) "UnidentifiedImageError" 0 eq_refl)
    as [(e & s' & H & Hs & _ & Himp) _].
  destruct (Himp eq_refl eq_refl) as (-> & _ & Hl).
  exists s'. split; [exact H|]. split; [exact Hs|exact Hl].
Defined.

Lemma load_data_returns_bare_document_witness :
  (exists d, RDoc (doc "a red square" None) = RDoc d)
  /\ (forall l, RDoc (doc "a red square" None) <> RList l).
Proof.
  assert (Hload : load_data patched "photo.png" None (reader patched false)
                  = (inr (RDoc (doc "a red square" None)),
                     after (load_data patched "photo.png" None
                              (reader patched false))))
    by (vm_compute; reflexivity).
  exact (load_data_returns_bare_document patched "photo.png" None
           (reader patched false) _ _ Hload).
Defined.

Lemma load_data_never_reads_stored_config_witness :
  is_Some (self (reader plain true) !! "_parser_config")
  /\ self (reader plain true) !! "parser_config" = None
  /\ fst (load_data plain "scan.png" None (reader plain true))
     = inl (AttributeError "parser_config").
Proof.
  destruct (load_data_never_reads_stored_config plain (Some good_config) true
              default_prompt start (reader plain true) "scan.png" None
              (reader plain true) eq_refl eq_refl eq_refl)
    as ((Hhas & Hnot) & _ & Hreach & _).
  split; [exact Hhas|]. split; [exact Hnot|].
  apply (Hreach ("L", "gggg") 0 ("RGB", "gggg") 0);
    try reflexivity.
  intros _. now exists "b64:RGB:gggg", 0.
Defined.

(** C2, on the code as it is: a reader built with a well-formed
    configuration, handed a file that opens as an RGB image, raises
    [AttributeError] instead of returning a caption. *)
Theorem load_data_valid_image_raises :
  fst (new plain (Some good_config) false default_prompt start) = inr tt
  /\ Image_open plain "photo.png" 0 = (inr ("RGB", "rrrr"), 0)
  /\ fst (load_data plain "photo.png" None (reader plain false))
     = inl (AttributeError "parser_config")
  /\ fst (load_data plain "photo.png" None (reader plain true))
     = inl (AttributeError "parser_config").
Proof. repeat split. Qed.

Lemma new_default_builds_witness :
  exists c : gmap string (@pyval Handle),
    fst (new with_gpu None false default_prompt start) = inr tt
    /\ c !! "device" = Some (PStr "cuda")
    /\ c !! "dtype" = Some (PDtype float16)
    /\ missing_key c = None.
Proof.
  assert (Hnone : first_missing with_gpu = None) by (vm_compute; reflexivity).
  destruct (new_default_builds with_gpu false default_prompt start
              "proc" "blip2" 1 2 Hnone eq_refl eq_refl)
    as (c & Hnew & _ & _ & Hdev & Hdt & _ & Hkeys).
  exists c. rewrite Hnew. now repeat split.
Defined.

Lemma new_failure_cases_witness :
  fst (new offline None true default_prompt start)
  = inl (Propagated "ConnectionError")
  /\ self (after (new offline None true default_prompt start)) = ∅.
Proof.
  assert (Hrun : new offline None true default_prompt start
                 = (inl (Propagated "ConnectionError"),
                    after (new offline None true default_prompt start)))
    by (vm_compute; reflexivity).
  destruct (new_failure_cases offline None true default_prompt start _ _ Hrun)
    as (_ & Hself & _).
  split; [now rewrite Hrun|exact Hself].
Defined.


Lemma load_data_backend_uses_config_witness :
  exists l,
    log (snd (load_data patched "photo.png" None (reader patched true)))
    = (log (reader patched true) ++ l)%list
    /\ Forall (backend_call_from good_config (AStr default_prompt)) l.
Proof.
  assert (Hc : lookup_attr patched (self (reader patched true))
                 "parser_config" = Some (ADict good_config))
    by (vm_compute; reflexivity).
  assert (Hq : lookup_attr patched (self (reader patched true)) "_prompt"
               = Some (AStr default_prompt))
    by (vm_compute; reflexivity).
  exact (load_data_backend_uses_config patched "photo.png" None
           (reader patched true) good_config (AStr default_prompt) Hc Hq).
Defined.

Lemma load_data_prompt_as_constructed_witness :
  exists l,
    log (snd (load_data patched "photo.png" None (reader patched true)))
    = (log (reader patched true) ++ l)%list
    /\ Forall (fun e => forall p i q,
                         e = EvProcessor p i q -> q = AStr default_prompt) l.
Proof.
  assert (Hnew : new patched (Some good_config) true default_prompt start
                 = (inr tt, reader patched true))
    by (vm_compute; reflexivity).
  exact (load_data_prompt_as_constructed patched (Some good_config) true
           default_prompt start (reader patched true) "photo.png" None
           (reader patched true) Hnew eq_refl).
Defined.

Lemma load_data_no_serialization_without_keep_witness :
  exists l,
    log (snd (load_data patched "scan.png" None (reader patched false)))
    = (log (reader patched false) ++ l)%list
    /\ forallb (fun e => negb (is_serialization e)) l = true.
Proof.
  assert (Hnew : new patched (Some good_config) false default_prompt start
                 = (inr tt, reader patched false))
    by (vm_compute; reflexivity).
  exact (load_data_no_serialization_without_keep patched (Some good_config)
           default_prompt start (reader patched false) "scan.png" None
           (reader patched false) Hnew eq_refl).
Defined.

Lemma load_data_needs_complete_config_witness :
  (exists e, fst (load_data half "photo.png" None (reader half true)) = inl e)
  /\ exists l,
       log (snd (load_data half "photo.png" None (reader half true)))
       = (log (reader half true) ++ l)%list
       /\ forallb (fun e => negb (is_captioning e)) l = true.
Proof.
  apply load_data_needs_complete_config.
  intros (c & Hc & Hall).
  assert (Hhalf : lookup_attr half (self (reader half true)) "parser_config"
                  = Some (ADict half_config))
    by (vm_compute; reflexivity).
  rewrite Hhalf in Hc. injection Hc as <-.
  assert (Hin : "dtype" ∈ config_keys) by (vm_compute; set_solver).
  destruct (Hall "dtype" Hin) as [v Hv].
  vm_compute in Hv. discriminate Hv.
Defined.


Lemma load_data_missing_local_import_witness :
  exists msg s',
    load_data no_gpt_index "photo.png" None (reader no_gpt_index false)
    = (inl (ImportError msg), s')
    /\ world s' = world (reader no_gpt_index false).
Proof.
  destruct (load_data_missing_local_import no_gpt_index "photo.png" None
              (reader no_gpt_index false) (or_intror eq_refl))
    as (msg & s' & H & _ & Hw & _).
  exists msg, s'. split; [exact H|exact Hw].
Defined.

Lemma load_data_succeeds_witness :
  exists s',
    load_data patched "scan.png" None (reader patched true)
    = (inr (RDoc (doc "a red square" (Some "b64:RGB:gggg"))), s')
    /\ world s' = 0.
Proof.
  assert (Hk : lookup_attr patched (self (reader patched true)) "_keep_image"
               = Some (ABool true))
    by (vm_compute; reflexivity).
  assert (Hc : lookup_attr patched (self (reader patched true))
                 "parser_config" = Some (ADict good_config))
    by (vm_compute; reflexivity).
  assert (Hq : lookup_attr patched (self (reader patched true)) "_prompt"
               = Some (AStr default_prompt))
    by (vm_compute; reflexivity).
  assert (Hopen : Image_open patched "scan.png" (world (reader patched true))
                  = (inr ("L", "gggg"), 0))
    by (vm_compute; reflexivity).
  destruct (load_data_succeeds patched "scan.png" None (reader patched true)
              ("L", "gggg") ("RGB", "gggg") (ABool true)
              (AStr default_prompt) (Some "b64:RGB:gggg") good_config
              (PObj "blip2") (PObj "proc") (PStr "cpu") (PDtype float32)
              "inputs" "inputs" "tokens" "tokens[0]" "a red square"
              0 0 0 0 0 0 0 0 0
              eq_refl eq_refl Hopen eq_refl Hk eq_refl Hc
              eq_refl eq_refl eq_refl eq_refl Hq
              eq_refl eq_refl eq_refl eq_refl eq_refl eq_refl)
    as (s' & H & Hw & _).
  exists s'. split; [exact H|exact Hw].
Defined.

End Runs.
